(** * rifiuti2, [src/utils.c]: a shallow embedding and its verified properties

    The file follows [utils.c] top to bottom: option callbacks, the FILETIME
    conversion, the Windows version guess, the three serializers and the
    final cleanup.  Machine integers are [Z] with their wrap-around written
    out, C strings are [string] ([option string] where the pointer may be
    [NULL]), the [GHashTable] of unreadable entries is a [gmap], and effects
    ([g_print], [g_printerr], calls into the path converter, aborts of
    [g_assert_not_reached]) are recorded by a small trace monad.

    What [utils.c] takes from its headers and from the other files of the
    program is a parameter of the development: numeric constants of
    [utils.h] and [utils-error.h] live in [header_consts], functions of
    [utils-conv.c], [utils-io.c], [utils-platform.c] and the parts of GLib
    that depend on locale or clock live in [externals]. *)

From stdpp Require Import gmap strings list pretty.
From Stdlib Require Import ZArith Lia Ascii.

Local Open Scope Z_scope.

(** ** Characters that cannot be written inside a literal *)

Definition DQ : string := String (Ascii.ascii_of_nat 34) EmptyString.
Definition LF : string := String (Ascii.ascii_of_nat 10) EmptyString.
Definition TAB : string := String (Ascii.ascii_of_nat 9) EmptyString.

(** ** C integers *)

Definition G_MAXUINT64 : Z := 2 ^ 64 - 1.
Definition INT64_MIN : Z := - 2 ^ 63.
Definition INT64_MAX : Z := 2 ^ 63 - 1.

(** Two's complement reduction of a mathematical integer to [int64_t]. *)
Definition wrap_int64 (z : Z) : Z := (z + 2 ^ 63) mod 2 ^ 64 - 2 ^ 63.

(** [printf] conversions used by the file: [%u], [%d], [PRIu32], [PRIu64],
    [PRId64] all print the decimal numeral of the value. *)
Definition fmt_dec (z : Z) : string := pretty z.

(** [%2u]: decimal, right-aligned in a field of width two. *)
Definition fmt_2u (z : Z) : string :=
  let s := fmt_dec z in
  if (String.length s <? 2)%nat then " " +:+ s else s.

(** [%s] applied to a possibly [NULL] pointer (GLib prints [(null)]). *)
Definition fmt_s (s : option string) : string := default "(null)" s.

(** ** GLib: errors *)

(** A [GQuark] is an interned string; two quarks are equal exactly when
    their strings are. *)
Definition GQuark : Type := string.

Definition G_OPTION_ERROR : GQuark := "g-option-context-error-quark".
Definition G_FILE_ERROR : GQuark := "g-file-error-quark".
Definition G_CONVERT_ERROR : GQuark := "g_convert_error".
(** [G_DEFINE_QUARK (rifiuti-fatal-error-quark, rifiuti_fatal_error)] and
    [G_DEFINE_QUARK (rifiuti-record-error-quark, rifiuti_record_error)]. *)
Definition R2_FATAL_ERROR : GQuark := "rifiuti-fatal-error-quark".
Definition R2_REC_ERROR : GQuark := "rifiuti-record-error-quark".

(** [GOptionError] and [GConvertError] codes, as GLib declares them. *)
Definition G_OPTION_ERROR_BAD_VALUE : Z := 1.
Definition G_OPTION_ERROR_FAILED : Z := 2.
Definition G_CONVERT_ERROR_NO_CONVERSION : Z := 0.
Definition G_CONVERT_ERROR_ILLEGAL_SEQUENCE : Z := 1.
Definition G_CONVERT_ERROR_PARTIAL_INPUT : Z := 3.

Record GError : Type := mkGError {
  domain : GQuark;
  code : Z;
  message : string
}.

Definition g_error_matches (error : option GError) (d : GQuark) (c : Z) : bool :=
  match error with
  | Some e => bool_decide (domain e = d) && (code e =? c)
  | None => false
  end.

(** ** GLib: date and time

    A [GDateTime] is an instant (seconds since the Unix epoch; the file
    never asks for sub-second resolution) seen in a time zone.  GLib
    represents the years 1 to 9999 only: [g_date_time_new_from_unix_utc]
    answers [NULL] outside 0001-01-01T00:00:00Z .. 9999-12-31T23:59:59Z. *)

Inductive GTimeZone : Type := TZ_UTC | TZ_LOCAL.

Record GDateTime : Type := mkGDateTime {
  unix_seconds : Z;
  timezone : GTimeZone
}.

Definition GDATETIME_MIN_UNIX : Z := -62135596800.
Definition GDATETIME_MAX_UNIX : Z := 253402300799.

Definition g_date_time_new_from_unix_utc (t : Z) : option GDateTime :=
  if (GDATETIME_MIN_UNIX <=? t) && (t <=? GDATETIME_MAX_UNIX)
  then Some (mkGDateTime t TZ_UTC)
  else None.

Definition g_date_time_to_local (dt : GDateTime) : GDateTime :=
  mkGDateTime (unix_seconds dt) TZ_LOCAL.

Definition g_date_time_ref (dt : GDateTime) : GDateTime := dt.

(** ** GLib: strings *)

(** A [GString] holding raw path bytes. *)
Definition GString : Type := list Z.

(** [g_strjoinv]: the array is [NULL]-terminated, so joining stops at the
    first [NULL] element; a [NULL] separator counts as empty. *)
Fixpoint strv (l : list (option string)) : list string :=
  match l with
  | Some s :: t => s :: strv t
  | _ => []
  end.

Definition g_strjoinv (separator : option string) (str_array : list (option string)) : string :=
  String.concat (default "" separator) (strv str_array).

(** ** Enumerations of [utils.h] and [utils-error.h] *)

Inductive out_fmt : Type :=
  FORMAT_UNKNOWN | FORMAT_TEXT | FORMAT_XML | FORMAT_JSON.

Inductive rbin_type : Type :=
  RECYCLE_BIN_TYPE_FILE | RECYCLE_BIN_TYPE_DIR.

(** Modelled from the spec: the tri-state [still_exists] of a record
    (gone / present on disk / not checked); the C enumeration is declared
    in [utils.h]. *)
Inductive gone_status : Type :=
  FILESTATUS_EXISTS | FILESTATUS_GONE | FILESTATUS_UNKNOWN.

(** The exit codes [utils.c] names; an enumeration, so pairwise distinct. *)
Inductive exitcode : Type :=
  | EXIT_OK
  | EXIT_ERR_ARG
  | EXIT_ERR_OPEN_FILE
  | EXIT_ERR_ILLEGAL_DATA
  | EXIT_ERR_WRITE_FILE
  | EXIT_ERR_NO_LIVE
  | EXIT_ERR_DUBIOUS_DATA
  | EXIT_ERR_UNHANDLED.

#[global] Instance out_fmt_eq_dec : EqDecision out_fmt.
Proof. solve_decision. Defined.
#[global] Instance rbin_type_eq_dec : EqDecision rbin_type.
Proof. solve_decision. Defined.
#[global] Instance exitcode_eq_dec : EqDecision exitcode.
Proof. solve_decision. Defined.

(** Numeric constants whose values the headers fix: the
    version tags stored in [meta->version] (an [int64_t], so any other
    number can be stored too) and the codes of the program's own fatal
    error domain. *)
Record header_consts : Type := mkHeaderConsts {
  VERSION_NOT_FOUND : Z;
  VERSION_WIN95 : Z;
  VERSION_WIN98 : Z;
  VERSION_NT4 : Z;
  VERSION_ME_03 : Z;
  VERSION_VISTA : Z;
  VERSION_WIN10 : Z;
  R2_FATAL_ERROR_ILLEGAL_DATA : Z;
  R2_FATAL_ERROR_TEMPFILE : Z;
  R2_FATAL_ERROR_LIVE_UNSUPPORTED : Z
}.

(** C refuses a [switch] with two equal [case] labels: the labels of each
    of the two switches of [_guess_windows_ver] are pairwise distinct. *)
Definition case_labels_distinct (c : header_consts) : Prop :=
  VERSION_VISTA c ≠ VERSION_WIN10 c ∧
  NoDup [VERSION_WIN95 c; VERSION_WIN98 c; VERSION_NT4 c; VERSION_ME_03 c].

#[global] Instance case_labels_distinct_dec (c : header_consts) :
  Decision (case_labels_distinct c).
Proof. unfold case_labels_distinct. apply _. Defined.

(** ** Records and metadata *)

(** The fields of a record that [utils.c] reads.  [deltime] is
    dereferenced without a [NULL] test by every printer. *)
Record rbin_struct : Type := mk_rbin_struct {
  index_n : Z;                          (* uint32_t, INFO2 *)
  index_s : option string;              (* char *, per-item files *)
  deltime : GDateTime;
  gone : gone_status;
  filesize : Z;                         (* uint64_t *)
  raw_uni_path : option GString;
  raw_legacy_path : option GString;
  error : option GError
}.

Record metarecord : Type := mk_metarecord {
  type : rbin_type;
  filename : string;
  version : Z;                          (* int64_t *)
  recordsize : Z;                       (* uint32_t, INFO2 only *)
  total_entry : Z;                      (* uint32_t, INFO2 only *)
  fill_junk : bool;
  records : list rbin_struct;           (* GPtrArray, physical order *)
  invalid_records : gmap string GError  (* GHashTable *)
}.

Definition set_error (r : rbin_struct) (e : option GError) : rbin_struct :=
  mk_rbin_struct (index_n r) (index_s r) (deltime r) (gone r) (filesize r)
    (raw_uni_path r) (raw_legacy_path r) e.

Definition set_records (m : metarecord) (rs : list rbin_struct) : metarecord :=
  mk_metarecord (type m) (filename m) (version m) (recordsize m)
    (total_entry m) (fill_junk m) rs (invalid_records m).

(** ** Collaborators of [utils.c]

    Functions the file calls but does not define. *)

Record externals : Type := mkExternals {
  (* conditional compilation *)
  G_OS_WIN32 : bool;
  __linux__ : bool;
  (* utils-conv.h *)
  (** [enc_is_ascii_compatible (enc, &conv_err)]: the answer and what it
      leaves in [conv_err] (which is [NULL] before the call). *)
  enc_is_ascii_compatible : string → bool * option GError;
  (** [conv_path_to_utf8_with_tmpl (path, from_enc, format, func, error)]:
      the converted text ([NULL] on failure) and what the call leaves in
      the slot [error] points to, given what the slot held before. *)
  conv_path_to_utf8_with_tmpl :
    option GString → option string → out_fmt → option (string → string) →
    option GError → option string * option GError;
  filter_escapes : string → string;
  json_escape : string → string;
  (* utils-io.h: [None] is success, [Some e] a failure that stores [e] *)
  get_tempfile : option GError;
  clean_tempfile : string → option GError;
  (* the [fmt] table of format data *)
  friendly_name : out_fmt → string;
  gone_outtext : out_fmt → gone_status → string;
  (* utils-platform.h *)
  windows_product_name : option string;
  get_win_timezone_name : option string;
  (* GLib: file system, locale and clock *)
  g_file_test_exists : string → bool;
  g_filename_display_name : string → string;
  g_date_time_format : GDateTime → string → string;
  g_date_time_new_now_local : GDateTime;
  g_date_time_new_now_utc : GDateTime
}.

(** ** Global variables of [utils.c]

    The [static bool seen] locals of three option callbacks are part of
    the state as well. *)

Record globals : Type := mk_globals {
  output_format : out_fmt;
  no_heading : bool;
  use_localtime : bool;
  live_mode : bool;
  delim : option string;
  output_loc : option string;
  legacy_encoding : option string;
  seen_delim : bool;           (* [seen] of [_set_opt_delim] *)
  seen_output : bool;          (* [seen] of [_set_output_path] *)
  seen_encoding : bool         (* [seen] of [_check_legacy_encoding] *)
}.

(** The initializers of the declarations. *)
Definition initial_globals : globals :=
  mk_globals FORMAT_UNKNOWN false false false None None None false false false.

Definition set_output_format (g : globals) (f : out_fmt) : globals :=
  mk_globals f (no_heading g) (use_localtime g) (live_mode g) (delim g)
    (output_loc g) (legacy_encoding g) (seen_delim g) (seen_output g)
    (seen_encoding g).

Definition set_no_heading (g : globals) (b : bool) : globals :=
  mk_globals (output_format g) b (use_localtime g) (live_mode g) (delim g)
    (output_loc g) (legacy_encoding g) (seen_delim g) (seen_output g)
    (seen_encoding g).

Definition set_delim (g : globals) (d : option string) : globals :=
  mk_globals (output_format g) (no_heading g) (use_localtime g) (live_mode g) d
    (output_loc g) (legacy_encoding g) (seen_delim g) (seen_output g)
    (seen_encoding g).

Definition set_output_loc (g : globals) (loc : option string) : globals :=
  mk_globals (output_format g) (no_heading g) (use_localtime g) (live_mode g)
    (delim g) loc (legacy_encoding g) (seen_delim g) (seen_output g)
    (seen_encoding g).

Definition set_seen_output (g : globals) (b : bool) : globals :=
  mk_globals (output_format g) (no_heading g) (use_localtime g) (live_mode g)
    (delim g) (output_loc g) (legacy_encoding g) (seen_delim g) b
    (seen_encoding g).

Definition set_legacy_encoding (g : globals) (e : option string) : globals :=
  mk_globals (output_format g) (no_heading g) (use_localtime g) (live_mode g)
    (delim g) (output_loc g) e (seen_delim g) (seen_output g)
    (seen_encoding g).

Definition set_seen_delim (g : globals) (b : bool) : globals :=
  mk_globals (output_format g) (no_heading g) (use_localtime g) (live_mode g)
    (delim g) (output_loc g) (legacy_encoding g) b (seen_output g)
    (seen_encoding g).

Definition set_seen_encoding (g : globals) (b : bool) : globals :=
  mk_globals (output_format g) (no_heading g) (use_localtime g) (live_mode g)
    (delim g) (output_loc g) (legacy_encoding g) (seen_delim g) (seen_output g)
    b.

(** ** Effects

    What a run does besides computing values: text written to standard
    output and standard error, GLib log messages, and each call of the path
    converter with the source bytes, the encoding and the format it was
    asked for.  A computation either returns or stops in
    [g_assert_not_reached]. *)

Inductive event : Type :=
  | Stdout (text : string)
  | Stderr (text : string)
  | Warning (text : string)
  | Critical (text : string)
  | ConvPath (src : option GString) (from_enc : option string) (format : out_fmt).

Inductive outcome (A : Type) : Type :=
  | Returns (a : A)
  | Aborts.
Arguments Returns {A} a.
Arguments Aborts {A}.

Definition M (A : Type) : Type := list event * outcome A.

Definition ret {A} (a : A) : M A := ([], Returns a).

Definition bind {A B} (m : M A) (f : A → M B) : M B :=
  match m with
  | (t, Returns a) => let '(t', r) := f a in (t ++ t', r)
  | (t, Aborts) => (t, Aborts)
  end.

Notation "'let*' x ':=' m 'in' k" := (bind m (fun x => k))
  (at level 10, x pattern, m at level 100, k at level 200).
Notation "m '>>' k" := (bind m (fun _ => k))
  (at level 90, right associativity).

Definition emit (e : event) : M unit := ([e], Returns tt).
Definition g_print (s : string) : M unit := emit (Stdout s).
Definition g_printerr (s : string) : M unit := emit (Stderr s).
Definition g_warning (s : string) : M unit := emit (Warning s).
Definition g_critical (s : string) : M unit := emit (Critical s).
Definition g_assert_not_reached {A} : M A := ([], Aborts).

Definition events {A} (m : M A) : list event := fst m.
Definition result {A} (m : M A) : outcome A := snd m.

(** [g_ptr_array_foreach] over records that the callback may update in
    place: the callback runs on each element in order. *)
Fixpoint foreach_record (f : rbin_struct → M rbin_struct) (l : list rbin_struct)
  : M (list rbin_struct) :=
  match l with
  | [] => ret []
  | r :: rest =>
      let* r' := f r in
      let* rest' := foreach_record f rest in
      ret (r' :: rest')
  end.

(** ** The functions of [utils.c]

    Messages are the untranslated ones ([_()] is the identity in the C
    locale); [g_debug] lines and the freeing of memory leave no trace. *)

Section utils.

Variable C : header_consts.
Variable X : externals.

(** What an option callback hands back to GLib: the [gboolean] it returns
    and the error it stored through its [GError **] argument. *)
Definition cb_result : Type := bool * option GError.

Definition CB_TRUE : cb_result := (true, None).
Definition CB_FALSE (d : GQuark) (c : Z) (msg : string) : cb_result :=
  (false, Some (mkGError d c msg)).

(** *** Option callbacks *)

(** Lines 175-195. *)
Definition _set_out_format (g : globals) (desired_format : out_fmt)
  : globals * cb_result :=
  if bool_decide (output_format g = desired_format) then (g, CB_TRUE)
  else if bool_decide (output_format g = FORMAT_UNKNOWN) then
    (set_output_format g desired_format, CB_TRUE)
  else
    (g, CB_FALSE G_OPTION_ERROR G_OPTION_ERROR_FAILED
          ("Output was already set in " +:+ friendly_name X (output_format g)
           +:+ ", but later argument attempts to change to "
           +:+ friendly_name X desired_format)).

(** Lines 198-222; [g_strcmp0 (format, s) == 0] is equality of strings. *)
Definition _set_opt_format (g : globals) (format : string)
  : globals * cb_result :=
  if bool_decide (format = "text") then _set_out_format g FORMAT_TEXT
  else if bool_decide (format = "tsv") then _set_out_format g FORMAT_TEXT
  else if bool_decide (format = "csv") then _set_out_format g FORMAT_TEXT
  else if bool_decide (format = "xml") then _set_out_format g FORMAT_XML
  else if bool_decide (format = "json") then _set_out_format g FORMAT_JSON
  else
    (g, CB_FALSE G_OPTION_ERROR G_OPTION_ERROR_BAD_VALUE
          ("Illegal output format '" +:+ format +:+ "'")).

(** Lines 229-242. *)
Definition _set_opt_noheading (g : globals) : globals * cb_result :=
  _set_out_format (set_no_heading g true) FORMAT_TEXT.

(** Lines 249-271. *)
Definition _set_opt_delim (g : globals) (value : string)
  : globals * cb_result :=
  if seen_delim g then
    (g, CB_FALSE G_OPTION_ERROR G_OPTION_ERROR_FAILED
          "Multiple delimiter options disallowed.")
  else
    let g := set_seen_delim g true in
    let g := set_delim g
      (Some (if bool_decide (value = "") then "" else filter_escapes X value)) in
    _set_out_format g FORMAT_TEXT.

(** Lines 279-313. *)
Definition _set_output_path (g : globals) (value : string)
  : globals * cb_result :=
  if seen_output g then
    (g, CB_FALSE G_OPTION_ERROR G_OPTION_ERROR_FAILED
          "Multiple output destinations disallowed.")
  else
    let g := set_seen_output g true in
    if bool_decide (value = "") then
      (g, CB_FALSE G_OPTION_ERROR G_OPTION_ERROR_BAD_VALUE
            "Empty output filename disallowed.")
    else if g_file_test_exists X value then
      (g, CB_FALSE G_OPTION_ERROR G_OPTION_ERROR_BAD_VALUE
            "Output destinations already exists.")
    else (set_output_loc g (Some value), CB_TRUE).

(** Lines 320-334. *)
Definition _option_deprecated (g : globals) (opt_name : string)
  : M (globals * cb_result) :=
  if bool_decide (opt_name = "-x") || bool_decide (opt_name = "--xml") then
    g_warning ("Option '" +:+ opt_name
               +:+ "' is deprecated. Use '-f xml' in future.") >>
    ret (_set_out_format g FORMAT_XML)
  else ret (g, CB_TRUE).

(** Lines 342-401. *)
Definition _check_legacy_encoding (g : globals) (enc : string)
  : M (globals * cb_result) :=
  if seen_encoding g then
    ret (g, CB_FALSE G_OPTION_ERROR G_OPTION_ERROR_FAILED
               "Multiple encoding options disallowed.")
  else
    let g := set_seen_encoding g true in
    if bool_decide (enc = "") then
      ret (g, CB_FALSE G_OPTION_ERROR G_OPTION_ERROR_BAD_VALUE
                 "Empty encoding option disallowed.")
    else
      let '(compatible, conv_err) := enc_is_ascii_compatible X enc in
      if compatible then ret (set_legacy_encoding g (Some enc), CB_TRUE)
      else
        (* everything below is error handling *)
        if g_error_matches conv_err G_CONVERT_ERROR G_CONVERT_ERROR_NO_CONVERSION
        then
          ret (g, CB_FALSE G_OPTION_ERROR G_OPTION_ERROR_BAD_VALUE
            ("'" +:+ enc +:+ "' encoding is not supported by glib library "
             +:+ "on this system.  If iconv program is present on "
             +:+ "system, use 'iconv -l' for a list of possible "
             +:+ "alternatives; otherwise check out following site for "
             +:+ "a list of probable encodings to use:" +:+ LF +:+ LF +:+ TAB
             +:+ (if G_OS_WIN32 X
                  then "https://github.com/win-iconv/win-iconv/blob/master/win_iconv.c"
                  else "https://www.gnu.org/software/libiconv/")))
        else if g_error_matches conv_err G_CONVERT_ERROR G_CONVERT_ERROR_ILLEGAL_SEQUENCE
                || g_error_matches conv_err G_CONVERT_ERROR G_CONVERT_ERROR_PARTIAL_INPUT
        then
          ret (g, CB_FALSE G_OPTION_ERROR G_OPTION_ERROR_BAD_VALUE
            ("'" +:+ enc +:+ "' is incompatible to any Windows code page."))
        else g_assert_not_reached.

(** Lines 506-525: the post-parse hook of the output option group. *)
Definition _set_def_output_opts (g : globals) : globals * cb_result :=
  let g := if delim g is None then set_delim g (Some TAB) else g in
  let g := if bool_decide (output_format g = FORMAT_UNKNOWN)
           then set_output_format g FORMAT_TEXT else g in
  (g, CB_TRUE).

(** The options whose callbacks are above, as they appear on a command
    line: [-o]/[--output], [-t]/[--delimiter], [-n]/[--no-heading],
    [-x]/[--xml] (with the spelling used), [-f]/[--format] and
    [-l]/[--legacy-filename]. *)
Inductive option_arg : Type :=
  | OPT_output (value : string)
  | OPT_delimiter (value : string)
  | OPT_no_heading
  | OPT_xml (opt_name : string)
  | OPT_format (value : string)
  | OPT_legacy_filename (enc : string).

Definition run_callback (g : globals) (o : option_arg) : M (globals * cb_result) :=
  match o with
  | OPT_output value => ret (_set_output_path g value)
  | OPT_delimiter value => ret (_set_opt_delim g value)
  | OPT_no_heading => ret (_set_opt_noheading g)
  | OPT_xml opt_name => _option_deprecated g opt_name
  | OPT_format value => ret (_set_opt_format g value)
  | OPT_legacy_filename enc => _check_legacy_encoding g enc
  end.

(** [g_option_context_parse_strv]: the callbacks run in command-line
    order; the first that returns [FALSE] ends parsing with its error, and
    the post-parse hook runs only after every option was accepted.  (The
    hook of the main group, [_fileargs_handler], looks at the file system
    and is left out.) *)
Fixpoint parse_options (g : globals) (args : list option_arg)
  : M (globals * cb_result) :=
  match args with
  | [] => ret (_set_def_output_opts g)
  | o :: rest =>
      let* (g', r) := run_callback g o in
      if fst r then parse_options g' rest else ret (g', r)
  end.

(** *** FILETIME *)

Definition FILETIME_UNIX_DIFF : Z := 116444736000000000.

(** Lines 533-545.  The local [t]: a signed 64-bit subtraction, then C's
    division, which truncates towards zero. *)
Definition win_filetime_to_unix (win_filetime : Z) : Z :=
  wrap_int64 (win_filetime - FILETIME_UNIX_DIFF) ÷ 10000000.

Definition win_filetime_to_gdatetime (win_filetime : Z) : option GDateTime :=
  g_date_time_new_from_unix_utc (win_filetime_to_unix win_filetime).

(** *** Windows version guess *)

(** Lines 57-69. *)
Inductive _os_guess : Type :=
  | OS_GUESS_UNKNOWN
  | OS_GUESS_95
  | OS_GUESS_NT4
  | OS_GUESS_98
  | OS_GUESS_ME
  | OS_GUESS_2K
  | OS_GUESS_XP_03
  | OS_GUESS_2K_03   (* Empty recycle bin, full detection impossible *)
  | OS_GUESS_VISTA   (* includes everything up to 8.1 *)
  | OS_GUESS_10.

#[global] Instance os_guess_eq_dec : EqDecision _os_guess.
Proof. solve_decision. Defined.

(** The value of each enumerator: [OS_GUESS_UNKNOWN = -1], then counting
    from zero. *)
Definition os_guess_value (g : _os_guess) : Z :=
  match g with
  | OS_GUESS_UNKNOWN => -1
  | OS_GUESS_95 => 0
  | OS_GUESS_NT4 => 1
  | OS_GUESS_98 => 2
  | OS_GUESS_ME => 3
  | OS_GUESS_2K => 4
  | OS_GUESS_XP_03 => 5
  | OS_GUESS_2K_03 => 6
  | OS_GUESS_VISTA => 7
  | OS_GUESS_10 => 8
  end.

(** Lines 75-85. *)
Definition os_strings : list string :=
  [ "Windows 95";
    "Windows NT 4.0";
    "Windows 98";
    "Windows ME";
    "Windows 2000";
    "Windows XP or 2003";
    "Windows 2000, XP or 2003";
    "Windows Vista - 8.1";
    "Windows 10 or above" ].

(** Lines 798-840.  A [switch] picks the [case] whose label equals the
    scrutinee; with the labels distinct ([case_labels_distinct]) that is
    the first equal one. *)
Definition _guess_windows_ver (meta : metarecord) : outcome _os_guess :=
  if bool_decide (type meta = RECYCLE_BIN_TYPE_DIR) then
    if version meta =? VERSION_VISTA C then Returns OS_GUESS_VISTA
    else if version meta =? VERSION_WIN10 C then Returns OS_GUESS_10
    else Returns OS_GUESS_UNKNOWN
  else
    (* INFO2 only below *)
    if version meta =? VERSION_WIN95 C then Returns OS_GUESS_95
    else if version meta =? VERSION_WIN98 C then Returns OS_GUESS_98
    else if version meta =? VERSION_NT4 C then Returns OS_GUESS_NT4
    else if version meta =? VERSION_ME_03 C then
      if recordsize meta =? 280 then Returns OS_GUESS_ME
      else if bool_decide (length (records meta) = 0%nat) then Returns OS_GUESS_2K_03
      else Returns (if fill_junk meta then OS_GUESS_2K else OS_GUESS_XP_03)
    else Aborts.

Definition lift {A} (o : outcome A) : M A := ([], o).

(** *** Headers *)

Definition file_or_dir (meta : metarecord) : string :=
  if bool_decide (type meta = RECYCLE_BIN_TYPE_FILE) then "file" else "dir".

(** Lines 944-965: the line of the text preamble that names the operating
    system. *)
Definition _print_text_header_os (g : globals) (meta : metarecord) : M unit :=
  if (G_OS_WIN32 X || __linux__ X) && live_mode g then
    match windows_product_name X with
    | Some product_name => g_print ("OS: " +:+ product_name)
    | None => g_print "OS detection failed"
    end
  else
    let* guess := lift (_guess_windows_ver meta) in
    if bool_decide (guess = OS_GUESS_UNKNOWN) then g_print "OS detection failed"
    else g_print ("OS Guess: "
                  +:+ fmt_s (os_strings !! Z.to_nat (os_guess_value guess))).

(** Lines 923-1006. *)
Definition _print_text_header (g : globals) (meta : metarecord) : M unit :=
  g_print ("Recycle bin path: '"
           +:+ g_filename_display_name X (filename meta) +:+ "'" +:+ LF) >>
  (if version meta =? VERSION_NOT_FOUND C
   then g_print ("Version: ??? (empty folder)" +:+ LF)
   else g_print ("Version: " +:+ fmt_dec (version meta mod 2 ^ 64) +:+ LF)) >>
  (if bool_decide (type meta = RECYCLE_BIN_TYPE_FILE)
      && negb (total_entry meta =? 0)
   then g_print ("Total entries ever existed: "
                 +:+ fmt_dec ((total_entry meta + 2 ^ 31) mod 2 ^ 32 - 2 ^ 31)) >>
        g_print LF
   else ret tt) >>
  _print_text_header_os g meta >>
  g_print LF >>
  (* Deletion time for each entry may or may not be under DST. *)
  (let now := if use_localtime g then g_date_time_new_now_local X
              else g_date_time_new_now_utc X in
   let tzname := if G_OS_WIN32 X && use_localtime g
                 then get_win_timezone_name X else None in
   let tzname := if tzname is Some name then name
                 else g_date_time_format X now "%Z" in
   let tznumeric := g_date_time_format X now "%z" in
   g_print ("Time zone: " +:+ tzname +:+ " [" +:+ tznumeric +:+ "]") >>
   g_print LF) >>
  g_print LF >>
  g_print (g_strjoinv (delim g)
             [Some "Index"; Some "Deleted Time"; Some "Gone?"; Some "Size";
              Some "Path"] +:+ LF).

(** Lines 1013-1046. *)
Definition _print_xml_header (meta : metarecord) : M unit :=
  let result := "<?xml version=" +:+ DQ +:+ "1.0" +:+ DQ +:+ " encoding="
                +:+ DQ +:+ "UTF-8" +:+ DQ +:+ "?>" +:+ LF in
  let result := result +:+ "<recyclebin format=" +:+ DQ +:+ file_or_dir meta
                +:+ DQ in
  let result := if 0 <=? version meta   (* can be found and not error *)
                then result +:+ " version=" +:+ DQ +:+ fmt_dec (version meta)
                     +:+ DQ
                else result in
  let result := if bool_decide (type meta = RECYCLE_BIN_TYPE_FILE)
                   && (0 <? total_entry meta)
                then result +:+ " ever_existed=" +:+ DQ
                     +:+ fmt_dec (total_entry meta) +:+ DQ
                else result in
  let result := result +:+ ">" +:+ LF in
  let result := result +:+ "  <filename><![CDATA["
                +:+ g_filename_display_name X (filename meta)
                +:+ "]]></filename>" +:+ LF in
  g_print result.

(** Lines 1053-1076. *)
Definition _print_json_header (meta : metarecord) : M unit :=
  g_print ("{" +:+ LF +:+ "  " +:+ DQ +:+ "format" +:+ DQ +:+ ": " +:+ DQ
           +:+ file_or_dir meta +:+ DQ +:+ "," +:+ LF) >>
  (if 0 <=? version meta   (* can be found and not error *)
   then g_print ("  " +:+ DQ +:+ "version" +:+ DQ +:+ ": "
                 +:+ fmt_dec (version meta) +:+ "," +:+ LF)
   else g_print ("  " +:+ DQ +:+ "version" +:+ DQ +:+ ": null," +:+ LF)) >>
  (if bool_decide (type meta = RECYCLE_BIN_TYPE_FILE) && (0 <? total_entry meta)
   then g_print ("  " +:+ DQ +:+ "ever_existed" +:+ DQ +:+ ": "
                 +:+ fmt_dec (total_entry meta) +:+ "," +:+ LF)
   else ret tt) >>
  g_print ("  " +:+ DQ +:+ "path" +:+ DQ +:+ ": " +:+ DQ
           +:+ json_escape X (g_filename_display_name X (filename meta))
           +:+ DQ +:+ "," +:+ LF) >>
  g_print ("  " +:+ DQ +:+ "records" +:+ DQ +:+ ": [" +:+ LF).

(** *** Records *)

(** A call of [conv_path_to_utf8_with_tmpl], recorded in the trace. *)
Definition call_conv_path (src : option GString) (from_enc : option string)
    (format : out_fmt) (func : option (string → string))
    (slot : option GError) : M (option string * option GError) :=
  emit (ConvPath src from_enc format) >>
  ret (conv_path_to_utf8_with_tmpl X src from_enc format func slot).

(** [src = legacy_encoding ? record->raw_legacy_path : record->raw_uni_path] *)
Definition path_source (g : globals) (record : rbin_struct) : option GString :=
  if legacy_encoding g is Some _ then raw_legacy_path record
  else raw_uni_path record.

(** The size as each format writes it; [G_MAXUINT64] marks a faulty size. *)
Definition text_size_field (record : rbin_struct) : string :=
  if filesize record =? G_MAXUINT64 then "???"
  else fmt_dec (filesize record).

Definition xml_size_attr (record : rbin_struct) : string :=
  if filesize record =? G_MAXUINT64 then " size=" +:+ DQ +:+ "-1" +:+ DQ
  else " size=" +:+ DQ +:+ fmt_dec (filesize record) +:+ DQ.

Definition json_size_member (record : rbin_struct) : string :=
  if filesize record =? G_MAXUINT64 then ", " +:+ DQ +:+ "size" +:+ DQ +:+ ": null"
  else ", " +:+ DQ +:+ "size" +:+ DQ +:+ ": " +:+ fmt_dec (filesize record).

(** The first four columns of a TSV row. *)
Definition text_columns (g : globals) (record : rbin_struct) (meta : metarecord)
  : list (option string) :=
  let dt := if use_localtime g then g_date_time_to_local (deltime record)
            else g_date_time_ref (deltime record) in
  [ (if bool_decide (type meta = RECYCLE_BIN_TYPE_FILE)
     then Some (fmt_dec (index_n record))
     else index_s record);
    Some (g_date_time_format X dt "%F %T");
    Some (gone_outtext X FORMAT_TEXT (gone record));
    Some (text_size_field record) ].

(** Lines 1079-1119. *)
Definition _print_text_record (g : globals) (record : rbin_struct)
    (meta : metarecord) : M rbin_struct :=
  let header := text_columns g record meta in
  let src := path_source g record in
  let* (path, slot) :=
    call_conv_path src (legacy_encoding g) FORMAT_TEXT None (error record) in
  let header := header ++ [Some (default "???" path)] in
  g_print (g_strjoinv (delim g) header +:+ LF) >>
  ret (set_error record slot).

(** The timestamp of the XML and JSON formats. *)
Definition iso_time (g : globals) (record : rbin_struct) : string :=
  if use_localtime g
  then g_date_time_format X (g_date_time_to_local (deltime record)) "%FT%T%z"
  else g_date_time_format X (g_date_time_ref (deltime record)) "%FT%TZ".

(** A [GString] under construction is the list of the pieces appended to
    it so far; [s->str] is their concatenation. *)
Definition g_string_str (pieces : list string) : string := String.concat "" pieces.

(** [s] of [_print_xml_record] before the path is appended. *)
Definition xml_record_open (g : globals) (record : rbin_struct)
    (meta : metarecord) : list string :=
  [ "  <record";
    (if bool_decide (type meta = RECYCLE_BIN_TYPE_FILE)
     then " index=" +:+ DQ +:+ fmt_dec (index_n record) +:+ DQ
     else " index=" +:+ DQ +:+ fmt_s (index_s record) +:+ DQ);
    " time=" +:+ DQ +:+ iso_time g record +:+ DQ;
    " gone=" +:+ DQ +:+ gone_outtext X FORMAT_XML (gone record) +:+ DQ;
    xml_size_attr record ].

(** Lines 1122-1181. *)
Definition _print_xml_record (g : globals) (record : rbin_struct)
    (meta : metarecord) : M rbin_struct :=
  let s := xml_record_open g record meta in
  (* Still need to be converted despite using CDATA,
     otherwise could be writing garbage output *)
  let src := path_source g record in
  let* (path, slot) :=
    call_conv_path src (legacy_encoding g) FORMAT_XML None (error record) in
  let s := match path with
           | Some path =>
               s ++ [">" +:+ LF +:+ "    <path><![CDATA[" +:+ path
                     +:+ "]]></path>" +:+ LF +:+ "  </record>" +:+ LF]
           | None =>
               s ++ [">" +:+ LF +:+ "    <path/>" +:+ LF +:+ "  </record>" +:+ LF]
           end in
  g_print (g_string_str s) >>
  ret (set_error record slot).

(** [s] of [_print_json_record] before the path is appended. *)
Definition json_record_open (g : globals) (record : rbin_struct)
    (meta : metarecord) : list string :=
  [ "    {";
    (if bool_decide (type meta = RECYCLE_BIN_TYPE_FILE)
     then DQ +:+ "index" +:+ DQ +:+ ": " +:+ fmt_dec (index_n record)
     else DQ +:+ "index" +:+ DQ +:+ ": " +:+ DQ +:+ fmt_s (index_s record)
          +:+ DQ);
    ", " +:+ DQ +:+ "time" +:+ DQ +:+ ": " +:+ DQ +:+ iso_time g record +:+ DQ;
    ", " +:+ DQ +:+ "gone" +:+ DQ +:+ ": "
      +:+ gone_outtext X FORMAT_JSON (gone record);
    json_size_member record ].

(** Lines 1184-1239. *)
Definition _print_json_record (g : globals) (record : rbin_struct)
    (meta : metarecord) : M rbin_struct :=
  let s := json_record_open g record meta in
  let src := path_source g record in
  let* (path, slot) :=
    call_conv_path src (legacy_encoding g) FORMAT_JSON (Some (json_escape X))
      (error record) in
  let s := match path with
           | Some path =>
               s ++ [", " +:+ DQ +:+ "path" +:+ DQ +:+ ": " +:+ DQ +:+ path
                     +:+ DQ +:+ "}," +:+ LF]
           | None => s ++ [", " +:+ DQ +:+ "path" +:+ DQ +:+ ": null}," +:+ LF]
           end in
  g_print (g_string_str s) >>
  ret (set_error record slot).

(** Lines 1242-1253. *)
Definition _print_xml_footer : M unit := g_print ("</recyclebin>" +:+ LF).

Definition _print_json_footer : M unit :=
  g_print ("  ]" +:+ LF +:+ "}" +:+ LF).

(** *** Dumping all results

    Lines 1261-1304.  [dump_content] answers with the metadata as the record callbacks left
    it, the [bool] it returns and the error it stored.  The callbacks get
    [meta] to read [meta->type]; they write to the record they are given. *)

(** The three function pointers the [switch] on [output_format] selects. *)
Definition printers : Type :=
  option (metarecord → M unit)
  * (rbin_struct → metarecord → M rbin_struct)
  * option (M unit).

Definition select_printers (g : globals) : M printers :=
  match output_format g with
  | FORMAT_TEXT =>
      ret (if no_heading g then None else Some (_print_text_header g),
           _print_text_record g, None)
  | FORMAT_XML =>
      ret (Some _print_xml_header, _print_xml_record g, Some _print_xml_footer)
  | FORMAT_JSON =>
      ret (Some _print_json_header, _print_json_record g, Some _print_json_footer)
  | FORMAT_UNKNOWN => g_assert_not_reached
  end.

Definition dump_content (g : globals) (meta : metarecord)
  : M (metarecord * (bool * option GError)) :=
  match (if output_loc g is Some _ then get_tempfile X else None) with
  | Some e => ret (meta, (false, Some e))
  | None =>
      let* (print_header_func, print_record_func, print_footer_func) :=
        select_printers g in
      (if print_header_func is Some f then f meta else ret tt) >>
      let* records' :=
        foreach_record (fun record => print_record_func record meta)
          (records meta) in
      (if print_footer_func is Some f then f else ret tt) >>
      let meta' := set_records meta records' in
      match output_loc g with
      | Some loc =>
          match clean_tempfile X loc with
          | None => ret (meta', (true, None))
          | Some e => ret (meta', (false, Some e))
          end
      | None => ret (meta', (true, None))
      end
  end.

(** *** Errors and exit code *)

(** Lines 1307-1330. *)
Definition _dump_rec_error (record : rbin_struct) (flag : bool) : M bool :=
  match error record with
  | None => ret flag
  | Some e =>
      (if flag then ret tt
       else g_printerr (LF +:+ "Error occurred in following record:" +:+ LF)) >>
      (if negb (index_n record =? 0)
       then g_printerr (fmt_2u (index_n record) +:+ ": " +:+ message e +:+ LF)
       else g_printerr (fmt_s (index_s record) +:+ ": " +:+ message e +:+ LF)) >>
      ret true
  end.

(** Lines 1338-1368. *)
Definition _get_exit_code (error : option GError) : M exitcode :=
  match error with
  | None => ret EXIT_OK
  | Some e =>
      g_printerr ("Fatal error: " +:+ message e +:+ LF) >>
      if bool_decide (domain e = G_OPTION_ERROR) then ret EXIT_ERR_ARG
      else if bool_decide (domain e = G_FILE_ERROR) then ret EXIT_ERR_OPEN_FILE
      else if g_error_matches error R2_FATAL_ERROR (R2_FATAL_ERROR_ILLEGAL_DATA C)
      then ret EXIT_ERR_ILLEGAL_DATA
      else if g_error_matches error R2_FATAL_ERROR (R2_FATAL_ERROR_TEMPFILE C)
      then ret EXIT_ERR_WRITE_FILE
      else if g_error_matches error R2_FATAL_ERROR (R2_FATAL_ERROR_LIVE_UNSUPPORTED C)
      then ret EXIT_ERR_NO_LIVE
      else
        g_critical ("Error not handled: quark = " +:+ domain e +:+ ", code = "
                    +:+ fmt_dec (code e)) >>
        ret EXIT_ERR_UNHANDLED
  end.

(** [g_strsplit (s, "|", 0)] of a string that is not empty. *)
Fixpoint split_bar (s : string) : list string :=
  match s with
  | EmptyString => [EmptyString]
  | String a rest =>
      if Ascii.eqb a "|"%char then EmptyString :: split_bar rest
      else match split_bar rest with
           | h :: t => String a h :: t
           | [] => [String a EmptyString]
           end
  end.

(** The name an unreadable entry is reported under: a key that starts with
    a bar holds a byte range. *)
Definition record_id_text (record_id : string) : string :=
  match record_id with
  | String "|"%char _ =>
      let frags := split_bar record_id in
      "byte range " +:+ fmt_s (frags !! 1%nat) +:+ " - " +:+ fmt_s (frags !! 2%nat)
  | _ => record_id
  end.

Fixpoint dump_invalid_records (l : list (string * GError)) : M unit :=
  match l with
  | [] => ret tt
  | (key, val) :: rest =>
      g_printerr (record_id_text key +:+ ": " +:+ message val +:+ LF) >>
      dump_invalid_records rest
  end.

Fixpoint dump_rec_errors (l : list rbin_struct) (flag : bool) : M bool :=
  match l with
  | [] => ret flag
  | record :: rest =>
      let* flag := _dump_rec_error record flag in
      dump_rec_errors rest flag
  end.

(** Lines 1371-1405.  The hash table is walked in the order [map_to_list]
    gives; GLib fixes no order. *)
Definition _has_record_error (meta : metarecord) : M bool :=
  let* flag :=
    if negb (Nat.eqb (size (invalid_records meta)) 0) then
      g_printerr ("Error occurred in following record:" +:+ LF) >>
      dump_invalid_records (map_to_list (invalid_records meta)) >>
      ret true
    else ret false in
  dump_rec_errors (records meta) flag.

(** Lines 1413-1446.  [rifiuti_cleanup (GError **error)]: the argument is
    [None] for a [NULL] pointer, [Some slot] for a pointer to a slot. *)
Definition rifiuti_cleanup (meta : metarecord) (error : option (option GError))
  : M exitcode :=
  match error with
  | None =>
      g_critical "rifiuti_cleanup: assertion 'error != NULL' failed" >>
      ret EXIT_ERR_UNHANDLED
  | Some slot =>
      let* code := _get_exit_code slot in
      let* dubious := _has_record_error meta in
      ret (if dubious && bool_decide (code = EXIT_OK)
           then EXIT_ERR_DUBIOUS_DATA else code)
  end.

End utils.

Arguments _guess_windows_ver C meta : assert.

(** ** Vocabulary of the statements

    Readings of traces and results, and names for the parts of the code
    the properties speak about. *)

(** An event that is a write to standard output. *)
Definition is_stdout (e : event) : Prop := ∃ text, e = Stdout text.

(** Reading a trace: the conversions asked for, and the text printed. *)
Definition conv_requests (t : list event)
  : list (option GString * option string * out_fmt) :=
  omap (λ e, if e is ConvPath src enc fmt then Some (src, enc, fmt) else None) t.

Definition stdout_text (t : list event) : list string :=
  omap (λ e, if e is Stdout text then Some text else None) t.

(** The [func] argument each format passes to the converter. *)
Definition escape_func (X : externals) (format : out_fmt)
  : option (string → string) :=
  if format is FORMAT_JSON then Some (json_escape X) else None.

(** What the converter answers for a record: the text and the content of
    the record's error slot after the call. *)
Definition converted (X : externals) (g : globals) (format : out_fmt)
    (record : rbin_struct) : option string * option GError :=
  conv_path_to_utf8_with_tmpl X (path_source g record) (legacy_encoding g)
    format (escape_func X format) (error record).

(** The record callback [dump_content] selects for a format. *)
Definition record_func (X : externals) (g : globals) (format : out_fmt)
  : rbin_struct → metarecord → M rbin_struct :=
  match format with
  | FORMAT_XML => _print_xml_record X g
  | FORMAT_JSON => _print_json_record X g
  | _ => _print_text_record X g
  end.

(** A record after its callback ran: only the error slot can differ. *)
Definition after_print (X : externals) (g : globals) (format : out_fmt)
    (record : rbin_struct) : rbin_struct :=
  set_error record (converted X g format record).2.

(** A record that carries an error. *)
Definition has_error (record : rbin_struct) : bool :=
  if error record is Some _ then true else false.

(** The tick counts whose second count GLib can represent: from the last
    tick that truncates to 0001-01-01T00:00:00Z up to the last tick of
    9999-12-31T23:59:59Z. *)
Definition FILETIME_FIRST : Z := -504911232009999999.
Definition FILETIME_LAST : Z := 2650467743999999999.

(** The self-check failed the way GLib's converter fails: the codepage is
    unknown to the runtime, or the ASCII range does not decode. *)
Definition self_check_failure (conv_err : option GError) : bool :=
  g_error_matches conv_err G_CONVERT_ERROR G_CONVERT_ERROR_NO_CONVERSION
  || g_error_matches conv_err G_CONVERT_ERROR G_CONVERT_ERROR_ILLEGAL_SEQUENCE
  || g_error_matches conv_err G_CONVERT_ERROR G_CONVERT_ERROR_PARTIAL_INPUT.

(** A callback result that rejects the option with an option error. *)
Definition rejected (r : cb_result) : Prop :=
  r.1 = false ∧ ∃ e, r.2 = Some e ∧ domain e = G_OPTION_ERROR.

(** The format an option asks for, read off the command line: TSV for
    [-t] and [-n], XML for [-x], the named format for [-f]; none for an
    unknown format name and for options that are not about the format. *)
Definition requested_format (o : option_arg) : option out_fmt :=
  match o with
  | OPT_delimiter _ | OPT_no_heading => Some FORMAT_TEXT
  | OPT_xml opt_name =>
      if bool_decide (opt_name = "-x") || bool_decide (opt_name = "--xml")
      then Some FORMAT_XML else None
  | OPT_format value =>
      if bool_decide (value = "text") || bool_decide (value = "tsv")
         || bool_decide (value = "csv")
      then Some FORMAT_TEXT
      else if bool_decide (value = "xml") then Some FORMAT_XML
      else if bool_decide (value = "json") then Some FORMAT_JSON
      else None
  | OPT_output _ | OPT_legacy_filename _ => None
  end.

(** ** A concrete setting to run the model in

    One choice for everything [utils.c] takes from elsewhere, so that the
    functions above can be evaluated on concrete inputs. *)

Module Sample.

(** The version tags are the numbers found in the artifacts themselves:
    the first field of an INFO2 file is 0, 2, 4 or 5, that of a [$I] file
    is 1 or 2. *)
Definition consts : header_consts :=
  {| VERSION_NOT_FOUND := -1;
     VERSION_WIN95 := 0;
     VERSION_WIN98 := 4;
     VERSION_NT4 := 2;
     VERSION_ME_03 := 5;
     VERSION_VISTA := 1;
     VERSION_WIN10 := 2;
     R2_FATAL_ERROR_ILLEGAL_DATA := 0;
     R2_FATAL_ERROR_TEMPFILE := 1;
     R2_FATAL_ERROR_LIVE_UNSUPPORTED := 2 |}.

(** *** Text conversion

    [utils.c] only calls the Text/Path Normalizer, which lives in
    [utils-conv.c]; the setting has one written after the spec. *)

(** Modelled from the spec: the kinds of conversion failure of the
    Text/Path Normalizer ([utils-conv.c]): a codepage the runtime cannot
    use, an illegal byte sequence, an input that stops short. *)
Inductive conv_failure : Type :=
  NO_CONVERSION | ILLEGAL_SEQUENCE | PARTIAL_INPUT.

(** Modelled from the spec: strict UTF-16LE decoding of the Text/Path
    Normalizer ([utils-conv.c]), first half: bytes to code units, where a
    truncated code unit is a conversion failure. *)
Fixpoint utf16le_units (bytes : list Z) : conv_failure + list Z :=
  match bytes with
  | [] => inr []
  | lo :: hi :: rest =>
      match utf16le_units rest with
      | inr units => inr (lo + 256 * hi :: units)
      | inl f => inl f
      end
  | [_] => inl PARTIAL_INPUT
  end.

Definition is_high_surrogate (u : Z) : bool := (0xD800 <=? u) && (u <=? 0xDBFF).
Definition is_low_surrogate (u : Z) : bool := (0xDC00 <=? u) && (u <=? 0xDFFF).

(** Modelled from the spec: strict UTF-16LE decoding of the Text/Path
    Normalizer ([utils-conv.c]), second half: code units to code points,
    where an unpaired surrogate is a conversion failure. *)
Fixpoint utf16_code_points (units : list Z) : conv_failure + list Z :=
  match units with
  | [] => inr []
  | u :: rest =>
      if is_high_surrogate u then
        match rest with
        | v :: rest' =>
            if is_low_surrogate v then
              match utf16_code_points rest' with
              | inr cps =>
                  inr (0x10000 + (u - 0xD800) * 1024 + (v - 0xDC00) :: cps)
              | inl f => inl f
              end
            else inl ILLEGAL_SEQUENCE
        | [] => inl PARTIAL_INPUT
        end
      else if is_low_surrogate u then inl ILLEGAL_SEQUENCE
      else
        match utf16_code_points rest with
        | inr cps => inr (u :: cps)
        | inl f => inl f
        end
  end.

(** Modelled from the spec: decoding by the declared source encoding, as
    the Text/Path Normalizer ([utils-conv.c]) does it: UTF-16LE, or a
    legacy codepage through its table.  The runtime of this setting knows
    two 8-bit codepages: ISO-8859-1, where every byte is the code point of
    the same number, and ASCII, where bytes from 0x80 on are illegal; any
    other codepage is unsupported. *)
Definition decode (from_enc : string) (bytes : list Z) : conv_failure + list Z :=
  if bool_decide (from_enc = "UTF-16LE") then
    match utf16le_units bytes with
    | inr units => utf16_code_points units
    | inl f => inl f
    end
  else if bool_decide (from_enc = "ISO-8859-1") then inr bytes
  else if bool_decide (from_enc = "ASCII") then
    if forallb (λ b, b <? 0x80) bytes then inr bytes else inl ILLEGAL_SEQUENCE
  else inl NO_CONVERSION.

(** Modelled from the spec: the canonical text the Text/Path Normalizer
    ([utils-conv.c]) produces is UTF-8. *)
Definition utf8_encode (cp : Z) : list Z :=
  if cp <? 0x80 then [cp]
  else if cp <? 0x800 then [0xC0 + cp / 64; 0x80 + cp mod 64]
  else if cp <? 0x10000 then
    [0xE0 + cp / 4096; 0x80 + (cp / 64) mod 64; 0x80 + cp mod 64]
  else
    [0xF0 + cp / 262144; 0x80 + (cp / 4096) mod 64; 0x80 + (cp / 64) mod 64;
     0x80 + cp mod 64].

Definition utf8_string (cps : list Z) : string :=
  String.string_of_list_ascii
    (map (λ b, ascii_of_N (Z.to_N b)) (concat (map utf8_encode cps))).

(** The [GConvertError] code that stands for each kind of failure. *)
Definition conv_failure_code (f : conv_failure) : Z :=
  match f with
  | NO_CONVERSION => G_CONVERT_ERROR_NO_CONVERSION
  | ILLEGAL_SEQUENCE => G_CONVERT_ERROR_ILLEGAL_SEQUENCE
  | PARTIAL_INPUT => G_CONVERT_ERROR_PARTIAL_INPUT
  end.

(** Modelled from the spec: [enc_is_ascii_compatible] of [utils-conv.c].
    The ASCII-compatibility self-check decodes the range 0x00-0x7F with
    the codepage; the codepage passes when that succeeds and gives the
    ASCII characters back. *)
Definition ascii_self_check (enc : string) : bool * option GError :=
  match decode enc (seqZ 0 128) with
  | inr cps =>
      if bool_decide (cps = seqZ 0 128) then (true, None)
      else (false, Some (mkGError G_CONVERT_ERROR
                           G_CONVERT_ERROR_ILLEGAL_SEQUENCE
                           "Not ASCII compatible"))
  | inl f =>
      (false, Some (mkGError G_CONVERT_ERROR (conv_failure_code f)
                      "Conversion failed"))
  end.

(** Modelled from the spec: [conv_path_to_utf8_with_tmpl] of
    [utils-conv.c].  A path that cannot be converted yields no text and a
    conversion error, which is recorded on the record (through the error
    slot the caller passes) unless the slot is already taken; without a
    codepage the bytes are UTF-16LE. *)
Definition conv_path (path : option GString)
    (from_enc : option string) (format : out_fmt)
    (func : option (string → string)) (slot : option GError)
  : option string * option GError :=
  match path with
  | None => (None, slot)
  | Some bytes =>
      let enc := default "UTF-16LE" from_enc in
      match decode enc bytes with
      | inr cps => (Some (default id func (utf8_string cps)), slot)
      | inl _ =>
          (None,
           if slot is Some _ then slot
           else Some (mkGError R2_REC_ERROR 0
                        ("Path contains character(s) that could not be "
                         +:+ "interpreted in " +:+ enc +:+ " encoding")))
      end
  end.




(** Data without bearing on what is proved: labels of the format table,
    a clock that stands still, a date printer that shows the second
    count, escaping that leaves text alone, a file system that never
    fails. *)
Definition ext : externals :=
  {| G_OS_WIN32 := false;
     __linux__ := true;
     enc_is_ascii_compatible := ascii_self_check;
     conv_path_to_utf8_with_tmpl := conv_path;
     filter_escapes := id;
     json_escape := id;
     get_tempfile := None;
     clean_tempfile := λ _, None;
     friendly_name := λ f,
       match f with
       | FORMAT_TEXT => "TSV format"
       | FORMAT_XML => "XML format"
       | FORMAT_JSON => "JSON format"
       | FORMAT_UNKNOWN => "unknown format"
       end;
     gone_outtext := λ f s,
       match s with
       | FILESTATUS_EXISTS => "FALSE"
       | FILESTATUS_GONE => "TRUE"
       | FILESTATUS_UNKNOWN => "???"
       end;
     windows_product_name := None;
     get_win_timezone_name := None;
     g_file_test_exists := λ _, false;
     g_filename_display_name := id;
     g_date_time_format := λ dt _, fmt_dec (unix_seconds dt);
     g_date_time_new_now_local := mkGDateTime 0 TZ_LOCAL;
     g_date_time_new_now_utc := mkGDateTime 0 TZ_UTC |}.

(** *** Inputs *)

(** The decode error of a record whose Unicode path cannot be
    converted. *)
Definition truncated_error : GError :=
  mkGError R2_REC_ERROR 0
    "Path contains character(s) that could not be interpreted in UTF-16LE encoding".

(** A record whose Unicode path ends in the middle of a code unit, and
    whose size is the faulty-size marker.  The decoder emitted it with
    its decode error set and the raw paths kept. *)
Definition record_truncated : rbin_struct :=
  {| index_n := 1; index_s := None;
     deltime := mkGDateTime 1700000000 TZ_UTC; gone := FILESTATUS_GONE;
     filesize := G_MAXUINT64;
     raw_uni_path := Some [0x43; 0x00; 0x3A];
     raw_legacy_path := Some [0x43; 0x3A; 0xE9];
     error := Some truncated_error |}.

(** A record whose paths read [C:\é] in UTF-16LE and in ISO-8859-1. *)
Definition record_fine : rbin_struct :=
  {| index_n := 2; index_s := None;
     deltime := mkGDateTime 1700000000 TZ_UTC; gone := FILESTATUS_EXISTS;
     filesize := 1234;
     raw_uni_path := Some [0x43; 0x00; 0x3A; 0x00; 0x5C; 0x00; 0xE9; 0x00];
     raw_legacy_path := Some [0x43; 0x3A; 0x5C; 0xE9];
     error := None |}.

(** INFO2 files with the mid-era tag: records of 280 bytes, one of them
    in use and junk seen; records of 800 bytes, two in use. *)
Definition info2_280 : metarecord :=
  {| type := RECYCLE_BIN_TYPE_FILE; filename := "INFO2";
     version := 5; recordsize := 280; total_entry := 1; fill_junk := true;
     records := [record_fine]; invalid_records := ∅ |}.

Definition info2_800 : metarecord :=
  {| type := RECYCLE_BIN_TYPE_FILE; filename := "INFO2";
     version := 5; recordsize := 800; total_entry := 7; fill_junk := true;
     records := [record_truncated; record_fine]; invalid_records := ∅ |}.

(** An empty INFO2 file of Windows 95: records of 280 bytes, none in use. *)
Definition info2_win95_empty : metarecord :=
  {| type := RECYCLE_BIN_TYPE_FILE; filename := "INFO2";
     version := 0; recordsize := 280; total_entry := 0; fill_junk := false;
     records := []; invalid_records := ∅ |}.

(** Per-item folders: one with the Windows 10 tag, one with a tag that is
    neither of the two known ones. *)
Definition dir_win10 : metarecord :=
  {| type := RECYCLE_BIN_TYPE_DIR; filename := "$Recycle.Bin";
     version := 2; recordsize := 0; total_entry := 0; fill_junk := false;
     records := []; invalid_records := ∅ |}.

Definition dir_other : metarecord :=
  {| type := RECYCLE_BIN_TYPE_DIR; filename := "$Recycle.Bin";
     version := 3; recordsize := 0; total_entry := 0; fill_junk := false;
     records := []; invalid_records := ∅ |}.

(** A scan that met one unreadable entry and no fatal error. *)
Definition info2_unreadable : metarecord :=
  {| type := RECYCLE_BIN_TYPE_FILE; filename := "INFO2";
     version := 5; recordsize := 800; total_entry := 7; fill_junk := false;
     records := [record_fine];
     invalid_records :=
       {[ "|820|1620" :=
            mkGError R2_REC_ERROR 0 "Record is not a multiple of record size" ]} |}.

(** The globals after a command line without options, and after [-f xml]. *)
Definition globals_text : globals :=
  mk_globals FORMAT_TEXT false false false (Some TAB) None None false false false.

Definition globals_xml : globals :=
  mk_globals FORMAT_XML false false false (Some TAB) None None false false false.

(** [info2_800] as a dump hands it back: the first record carries its
    decode error. *)
Definition info2_800_dumped : metarecord :=
  set_records info2_800
    [set_error record_truncated (Some truncated_error); record_fine].

End Sample.

(** * More of [utils.c]: file arguments and the hex dump *)

(** ** The file system, as [utils.c] sees it

    What the file-argument checks ask of GLib and of the platform layer:
    file tests, the listing of a directory in the order
    [g_dir_read_name] gives it, the content of a file, path arithmetic and
    the enumeration of the recycle bin folders of a live system.
    [RECYCLE_BIN_CLSID] is a string constant of [utils.h]. *)

Record file_system : Type := mkFileSystem {
  g_file_test_is_dir : string → bool;
  g_file_test_is_regular : string → bool;
  (** [g_dir_open] then [g_dir_read_name] until [NULL]: the entries, or
      the error of [g_dir_open]. *)
  g_dir_open : string → GError + list string;
  (** [g_file_get_contents]: the bytes of the file, or failure. *)
  g_file_get_contents : string → option string;
  g_build_filename : string → string → string;
  g_path_get_dirname : string → string;
  (** Windows only: [None] when the folder can be listed. *)
  can_list_win32_folder : string → option GError;
  enumerate_drive_bins : GError + list string;
  RECYCLE_BIN_CLSID : string
}.

Definition G_FILE_ERROR_NOENT : Z := 4.
Definition G_FILE_ERROR_FAILED : Z := 24.

(** ** GLib: glob patterns

    [g_pattern_spec_match_string] on valid UTF-8: [*] stands for any run
    of characters, [?] for one character (as many bytes as the lead byte
    announces, by GLib's [g_utf8_skip] table), every other byte for
    itself. *)

Definition g_utf8_skip (lead : ascii) : nat :=
  let n := nat_of_ascii lead in
  if (n <? 192)%nat then 1
  else if (n <? 224)%nat then 2
  else if (n <? 240)%nat then 3
  else if (n <? 248)%nat then 4
  else if (n <? 252)%nat then 5
  else if (n <? 254)%nat then 6
  else 1.

Fixpoint skip_bytes (n : nat) (s : string) : string :=
  match n, s with
  | S n', String _ s' => skip_bytes n' s'
  | _, _ => s
  end.

Fixpoint g_pattern_match_string (pattern : string) : string → bool :=
  match pattern with
  | EmptyString => λ s, if s is EmptyString then true else false
  | String p rest =>
      if Ascii.eqb p "*" then
        fix star (s : string) : bool :=
          g_pattern_match_string rest s
          || match s with
             | EmptyString => false
             | String _ s' => star s'
             end
      else if Ascii.eqb p "?" then
        λ s, match s with
             | EmptyString => false
             | String c _ => g_pattern_match_string rest (skip_bytes (g_utf8_skip c) s)
             end
      else
        λ s, match s with
             | EmptyString => false
             | String c s' => Ascii.eqb p c && g_pattern_match_string rest s'
             end
  end.

(** ** C strings *)

(** The C string a buffer holds: its bytes up to the first NUL. *)
Fixpoint c_str (buffer : string) : string :=
  match buffer with
  | EmptyString => EmptyString
  | String c rest =>
      if Ascii.eqb c zero then EmptyString else String c (c_str rest)
  end.

(** [strstr (haystack, needle) != NULL] for C strings. *)
Fixpoint strstr_found (haystack needle : string) : bool :=
  String.prefix needle haystack
  || match haystack with
     | EmptyString => false
     | String _ rest => strstr_found rest needle
     end.

Definition set_filename (m : metarecord) (name : string) : metarecord :=
  mk_metarecord (type m) name (version m) (recordsize m)
    (total_entry m) (fill_junk m) (records m) (invalid_records m).

(** ** File arguments *)

Section files.

Variable C : header_consts.
Variable X : externals.
Variable F : file_system.

(** Lines 738-751: the two patterns an index file name is tried
    against. *)
Definition is_index_file_name (direntry : string) : bool :=
  g_pattern_match_string "$I??????.*" direntry
  || g_pattern_match_string "$I??????" direntry.

(** Lines 741-754: the loop over the directory entries. *)
Fixpoint add_index_files (files : list string) (path : string)
    (entries : list string) : list string :=
  match entries with
  | [] => files
  | direntry :: rest =>
      if negb (is_index_file_name direntry)
      then add_index_files files path rest
      else add_index_files (files ++ [g_build_filename F path direntry]) path rest
  end.

(** Lines 718-762.  The answer is the list as the function leaves it, the
    [bool] it returns and the error it stores. *)
Definition _populate_index_file_list (files : list string) (path : string)
  : list string * cb_result :=
  match (if G_OS_WIN32 X then can_list_win32_folder F path else None) with
  | Some e => (files, (false, Some e))
  | None =>
      match g_dir_open F path with
      | inl e => (files, (false, Some e))
      | inr entries => (add_index_files files path entries, CB_TRUE)
      end
  end.

(** Lines 771-790. *)
Definition _found_desktop_ini (path : string) : bool :=
  let filename := g_build_filename F path "desktop.ini" in
  if negb (g_file_test_is_regular F filename) then false
  else
    match g_file_get_contents F filename with
    | Some content =>
        (* Don't bother parsing, we don't use the content at all *)
        strstr_found (c_str content) (c_str (RECYCLE_BIN_CLSID F))
    | None => false
    end.

(** Lines 856-910.  [isolated_index] is [None] for a [NULL] pointer and
    [Some b] for a pointer to a [bool] that holds [b]; the answer carries
    the list and that [bool] as the function leaves them. *)
Definition _check_file_args (path : string) (files : list string)
    (type : rbin_type) (isolated_index : option bool)
  : list string * option bool * cb_result :=
  if negb (g_file_test_exists X path) then
    (files, isolated_index,
     CB_FALSE G_FILE_ERROR G_FILE_ERROR_NOENT
       ("'" +:+ path +:+ "' does not exist."))
  else if bool_decide (type = RECYCLE_BIN_TYPE_DIR) && g_file_test_is_dir F path
  then
    let '(files, r) := _populate_index_file_list files path in
    if negb r.1 then (files, isolated_index, r)
    else
      (* last ditch effort: search for desktop.ini. Just print empty
         content representing empty recycle bin if found. *)
      if Nat.eqb (length files) 0 && negb (_found_desktop_ini path) then
        (files, isolated_index,
         CB_FALSE G_FILE_ERROR G_FILE_ERROR_NOENT
           ("No files with name pattern '" +:+ "$Ixxxxxx.*"
            +:+ "' are found in directory."))
      else (files, isolated_index, CB_TRUE)
  else if g_file_test_is_regular F path then
    let isolated_index :=
      if isolated_index is Some _ then
        if bool_decide (type = RECYCLE_BIN_TYPE_DIR)
        then Some (negb (_found_desktop_ini (g_path_get_dirname F path)))
        else isolated_index
      else isolated_index in
    (files ++ [path], isolated_index, CB_TRUE)
  else
    (files, isolated_index,
     CB_FALSE G_FILE_ERROR G_FILE_ERROR_FAILED
       (if bool_decide (type = RECYCLE_BIN_TYPE_DIR)
        then "'" +:+ path +:+ "' is not a normal file or directory."
        else "'" +:+ path +:+ "' is not a normal file.")).

(** Lines 487-493: the loop over the recycle bin folders of a live
    system; the outcome of each check is ignored. *)
Fixpoint check_bindirs (bindirs : list string) (files : list string)
    (type : rbin_type) : list string :=
  match bindirs with
  | [] => files
  | bindir :: rest =>
      check_bindirs rest (_check_file_args bindir files type None).1.1 type
  end.

(** The globals the file-argument hook reads and writes, besides
    [live_mode]: [fileargs] ([None] for [NULL]), [allidxfiles],
    [isolated_index] and the metadata. *)
Record file_state : Type := mk_file_state {
  fileargs : option (list string);
  allidxfiles : list string;
  isolated_index : bool;
  meta : metarecord
}.

(** Lines 436-499. *)
Definition _fileargs_handler (g : globals) (st : file_state)
  : file_state * cb_result :=
  let fileargs_len := if fileargs st is Some l then length l else 0%nat in
  if negb (live_mode g) then
    if negb (Nat.eqb fileargs_len 1) then
      (st, CB_FALSE G_OPTION_ERROR G_OPTION_ERROR_FAILED
             "Must specify exactly one file or folder argument.")
    else
      let name := default "" (head (default [] (fileargs st))) in
      let meta := set_filename (meta st) name in
      let '(files, isolated, r) :=
        _check_file_args name (allidxfiles st) (type meta)
          (Some (isolated_index st)) in
      (mk_file_state (fileargs st) files
         (default (isolated_index st) isolated) meta, r)
  else if negb (Nat.eqb fileargs_len 0) then
    (st, CB_FALSE G_OPTION_ERROR G_OPTION_ERROR_FAILED
           ("Live system probation must not be used together "
            +:+ "with file arguments."))
  else if G_OS_WIN32 X || __linux__ X then
    let meta := set_filename (meta st) "(current system)" in
    match enumerate_drive_bins F with
    | inl e =>
        (mk_file_state (fileargs st) (allidxfiles st) (isolated_index st) meta,
         CB_FALSE R2_FATAL_ERROR (R2_FATAL_ERROR_LIVE_UNSUPPORTED C)
           ("Live probation unsupported under this system; "
            +:+ "requires running under Windows or WSL distribution." +:+ LF
            +:+ "Failure reason: " +:+ message e))
    | inr bindirs =>
        (* Ignore errors, pretty common that some folders don't
           exist or are empty. *)
        (mk_file_state (fileargs st)
           (check_bindirs bindirs (allidxfiles st) (type meta))
           (isolated_index st) meta,
         CB_TRUE)
    end
  else (st, CB_TRUE).

End files.

(** ** Hex dump

    Lines 1449-1473.  [hexdump] hands lines to [g_debug]; the model
    answers with those lines, in order.  The memory at [start] is the list
    of its bytes. *)

Definition hex_digit (n : N) : ascii :=
  match n with
  | 0 => "0" | 1 => "1" | 2 => "2" | 3 => "3" | 4 => "4" | 5 => "5"
  | 6 => "6" | 7 => "7" | 8 => "8" | 9 => "9" | 10 => "A" | 11 => "B"
  | 12 => "C" | 13 => "D" | 14 => "E" | _ => "F"
  end%N%char.

(** The hexadecimal numeral of [n], most significant digit first; [fuel]
    bounds the number of digits. *)
Fixpoint hex_digits (fuel : nat) (n : N) (acc : string) : string :=
  let acc := String (hex_digit (n mod 16)) acc in
  match fuel with
  | O => acc
  | S fuel => if (n / 16 =? 0)%N then acc else hex_digits fuel (n / 16) acc
  end.

Fixpoint zero_pad (fuel width : nat) (s : string) : string :=
  match fuel with
  | O => s
  | S fuel =>
      if (String.length s <? width)%nat
      then zero_pad fuel width (String "0" s) else s
  end.

(** [%0wX]: upper-case hexadecimal, padded with zeros to [width]. *)
Definition fmt_0X (width : nat) (n : N) : string :=
  zero_pad width width (hex_digits (N.to_nat (N.log2 n)) n EmptyString).

(** The body of the [while (true)] loop, [fuel] rounds of it: [i], the
    string [s] and the lines handed to [g_debug] so far.  [None] when the
    rounds run out before the [break]. *)
Fixpoint hexdump_loop (fuel : nat) (start : list Z) (size : nat) (i : nat)
    (s : string) (lines : list string) : option (list string) :=
  match fuel with
  | O => None
  | S fuel =>
      let '(s, lines) :=
        if Nat.eqb (i mod 16) 0 then
          let '(s, lines) :=
            if (0 <? String.length s)%nat then (EmptyString, lines ++ [s])
            else (s, lines) in
          (s +:+ fmt_0X 4 (N.of_nat i) +:+ "    ", lines)
        else (s, lines) in
      if (size <=? i)%nat then Some lines
      else
        hexdump_loop fuel start size (S i)
          (s +:+ fmt_0X 2 (Z.to_N (default 0 (start !! i))) +:+ " ") lines
  end.

Definition hexdump (start : list Z) (size : nat) : option (list string) :=
  hexdump_loop (S size) start size 0 EmptyString [].

(** ** Vocabulary of the further statements *)

(** What an option callback may hand back: success without an error, or
    failure with an error of the option domain. *)
Definition option_callback_result (r : cb_result) : Prop :=
  r = CB_TRUE ∨ ∃ c msg, r = CB_FALSE G_OPTION_ERROR c msg.

(** Kinds of options on a command line. *)
Definition is_output_option (o : option_arg) : bool :=
  if o is OPT_output _ then true else false.
Definition is_delimiter_option (o : option_arg) : bool :=
  if o is OPT_delimiter _ then true else false.
Definition is_encoding_option (o : option_arg) : bool :=
  if o is OPT_legacy_filename _ then true else false.

Definition count_options (kind : option_arg → bool) (args : list option_arg) : nat :=
  length (List.filter kind args).

(** An event that is a write to standard error. *)
Definition is_stderr (e : event) : Prop := ∃ text, e = Stderr text.

(** The label a record's error is reported under (lines 1322-1327): the
    number of an INFO2 record unless it is zero, else the index string. *)
Definition record_label (record : rbin_struct) : string :=
  if negb (index_n record =? 0) then fmt_2u (index_n record)
  else fmt_s (index_s record).

(** A string that holds a bar. *)
Fixpoint has_bar (s : string) : bool :=
  match s with
  | EmptyString => false
  | String a rest => Ascii.eqb a "|" || has_bar rest
  end.

(** The number of file arguments, as [_fileargs_handler] counts them
    (line 445). *)
Definition fileargs_len (st : file_state) : nat :=
  if fileargs st is Some l then length l else 0%nat.

(** A name all of whose bytes are ASCII. *)
Fixpoint all_ascii (s : string) : bool :=
  match s with
  | EmptyString => true
  | String c rest => (nat_of_ascii c <? 128)%nat && all_ascii rest
  end.

(** ** A sample file system

    A WSL mount with one recycle bin that holds two index files, one that
    is empty, one that cannot be opened and one that does not exist. *)

Module SampleFS.

Definition bin : string := "/mnt/c/$Recycle.Bin/S-1-5-21".
Definition empty_bin : string := "/mnt/d/$Recycle.Bin/S-1-5-21".
Definition locked_bin : string := "/mnt/e/$Recycle.Bin/S-1-5-21".
Definition missing_bin : string := "/mnt/f/$Recycle.Bin/S-1-5-21".
Definition plain_dir : string := "/home/user/plain".
Definition index_file : string := "/mnt/c/$Recycle.Bin/S-1-5-21/$IABCDEF.txt".
Definition stray_index : string := "/home/user/plain/$I123456".
Definition info2_file : string := "/home/user/INFO2".
Definition socket_file : string := "/run/user/socket".

Definition clsid : string := "{645FF040-5081-101B-9F08-00AA002F954E}".

Definition desktop_ini : string :=
  "[.ShellClassInfo]" +:+ LF +:+ "CLSID=" +:+ clsid +:+ LF.

Definition access_denied : GError :=
  mkGError G_FILE_ERROR 2
    "Error opening directory '/mnt/e/$Recycle.Bin/S-1-5-21': Permission denied".

Definition directories : list string :=
  [bin; empty_bin; locked_bin; plain_dir].

Definition regular_files : list string :=
  [index_file; stray_index; info2_file;
   bin +:+ "/desktop.ini"; empty_bin +:+ "/desktop.ini"].

Definition listing (path : string) : GError + list string :=
  if String.eqb path locked_bin then inl access_denied
  else if String.eqb path bin then
    inr ["$IABCDEF.txt"; "$RABCDEF.txt"; "desktop.ini"; "$I123456";
         "$I12345.txt"]
  else if String.eqb path empty_bin then inr ["desktop.ini"]
  else if String.eqb path plain_dir then inr ["notes.txt"]
  else inl (mkGError G_FILE_ERROR G_FILE_ERROR_NOENT "No such file or directory").

Definition contents (path : string) : option string :=
  if String.eqb path (bin +:+ "/desktop.ini") then Some desktop_ini
  else if String.eqb path (empty_bin +:+ "/desktop.ini") then Some desktop_ini
  else None.

(** The path up to its last slash. *)
Fixpoint up_to_last_slash (s : string) : option string :=
  match s with
  | EmptyString => None
  | String c rest =>
      match up_to_last_slash rest with
      | Some d => Some (String c d)
      | None => if Ascii.eqb c "/" then Some EmptyString else None
      end
  end.

Definition dirname (path : string) : string :=
  match up_to_last_slash path with
  | Some EmptyString => "/"
  | Some d => d
  | None => "."
  end.

Definition disk : file_system :=
  {| g_file_test_is_dir := λ path, bool_decide (path ∈ directories);
     g_file_test_is_regular := λ path, bool_decide (path ∈ regular_files);
     g_dir_open := listing;
     g_file_get_contents := contents;
     g_build_filename := λ a b, a +:+ "/" +:+ b;
     g_path_get_dirname := dirname;
     can_list_win32_folder := λ _, None;
     enumerate_drive_bins := inr [bin; locked_bin; empty_bin; missing_bin];
     RECYCLE_BIN_CLSID := clsid |}.

(** The collaborators of [Sample.ext], on this file system. *)
Definition disk_ext : externals :=
  {| G_OS_WIN32 := G_OS_WIN32 Sample.ext;
     __linux__ := __linux__ Sample.ext;
     enc_is_ascii_compatible := enc_is_ascii_compatible Sample.ext;
     conv_path_to_utf8_with_tmpl := conv_path_to_utf8_with_tmpl Sample.ext;
     filter_escapes := filter_escapes Sample.ext;
     json_escape := json_escape Sample.ext;
     get_tempfile := get_tempfile Sample.ext;
     clean_tempfile := clean_tempfile Sample.ext;
     friendly_name := friendly_name Sample.ext;
     gone_outtext := gone_outtext Sample.ext;
     windows_product_name := windows_product_name Sample.ext;
     get_win_timezone_name := get_win_timezone_name Sample.ext;
     g_file_test_exists := λ path,
       bool_decide (path ∈ directories ++ regular_files ++ [socket_file]);
     g_filename_display_name := g_filename_display_name Sample.ext;
     g_date_time_format := g_date_time_format Sample.ext;
     g_date_time_new_now_local := g_date_time_new_now_local Sample.ext;
     g_date_time_new_now_utc := g_date_time_new_now_utc Sample.ext |}.

(** The state before the file arguments are looked at: one argument, or
    none. *)
Definition one_argument (path : string) (type : rbin_type) : file_state :=
  mk_file_state (Some [path]) [] false
    (mk_metarecord type "" 0 0 0 false [] ∅).

Definition no_argument (type : rbin_type) : file_state :=
  mk_file_state None [] false (mk_metarecord type "" 0 0 0 false [] ∅).

Definition globals_live : globals :=
  mk_globals FORMAT_TEXT false false true (Some TAB) None None false false false.

End SampleFS.

(** * Properties *)

(** ** The trace monad *)

Lemma result_ret {A} (a : A) : result (ret a) = Returns a.
Proof. reflexivity. Qed.

Lemma events_ret {A} (a : A) : events (ret a) = [].
Proof. reflexivity. Qed.

Lemma bind_returns {A B} (m : M A) (f : A → M B) (b : B) :
  result (bind m f) = Returns b →
  ∃ a, result m = Returns a ∧ result (f a) = Returns b.
Proof.
  destruct m as [t [a|]]; simpl; [|discriminate].
  destruct (f a) as [t' r] eqn:E. simpl. intros ->.
  exists a. rewrite E. auto.
Qed.

Lemma bind_result {A B} (m : M A) (f : A → M B) (a : A) :
  result m = Returns a → result (bind m f) = result (f a).
Proof.
  destruct m as [t r]. simpl. intros ->. simpl. now destruct (f a).
Qed.

Lemma bind_events {A B} (m : M A) (f : A → M B) (a : A) :
  result m = Returns a → events (bind m f) = events m ++ events (f a).
Proof.
  destruct m as [t r]. simpl. intros ->. simpl. now destruct (f a).
Qed.

Lemma bind_emit {B} (e : event) (k : M B) :
  bind (emit e) (λ _, k) = (e :: events k, result k).
Proof. unfold bind, emit. now destruct k. Qed.

(** ** Windows version guess *)

Section guess.

Variable C : header_consts.
Hypothesis labels : case_labels_distinct C.

Lemma mid_era_not_other :
  (VERSION_ME_03 C =? VERSION_WIN95 C) = false ∧
  (VERSION_ME_03 C =? VERSION_WIN98 C) = false ∧
  (VERSION_ME_03 C =? VERSION_NT4 C) = false.
Proof.
  destruct labels as [_ Hnd].
  apply NoDup_cons in Hnd as [H95 Hnd].
  apply NoDup_cons in Hnd as [H98 Hnd].
  apply NoDup_cons in Hnd as [HNT _].
  rewrite !Z.eqb_neq. set_solver.
Qed.

(** The mid-era branch of the INFO2 [switch], as one equation. *)
Lemma guess_mid_era (meta : metarecord) :
  type meta = RECYCLE_BIN_TYPE_FILE →
  version meta = VERSION_ME_03 C →
  _guess_windows_ver C meta =
    if recordsize meta =? 280 then Returns OS_GUESS_ME
    else if bool_decide (length (records meta) = 0%nat) then Returns OS_GUESS_2K_03
    else Returns (if fill_junk meta then OS_GUESS_2K else OS_GUESS_XP_03).
Proof.
  intros Hty Hver. unfold _guess_windows_ver.
  rewrite Hty, Hver. simpl.
  destruct mid_era_not_other as (-> & -> & ->).
  now rewrite Z.eqb_refl.
Qed.

(** The per-item [switch], as one equation. *)
Lemma guess_dir (meta : metarecord) :
  type meta = RECYCLE_BIN_TYPE_DIR →
  _guess_windows_ver C meta =
    Returns (if version meta =? VERSION_VISTA C then OS_GUESS_VISTA
             else if version meta =? VERSION_WIN10 C then OS_GUESS_10
             else OS_GUESS_UNKNOWN).
Proof.
  intros Hty. unfold _guess_windows_ver. rewrite Hty. simpl.
  now repeat case_match.
Qed.

End guess.

(** C1 (as amended).  An INFO2 artifact with the mid-era version tag whose
    record size is 280 is classified as Windows ME, whatever its record
    set and its junk-pattern flag are: the flag is not consulted. *)
Theorem guess_record_size_280 (C : header_consts) (meta : metarecord) :
  case_labels_distinct C →
  type meta = RECYCLE_BIN_TYPE_FILE →
  version meta = VERSION_ME_03 C →
  recordsize meta = 280 →
  _guess_windows_ver C meta = Returns OS_GUESS_ME ∧
  ∀ rs junk,
    _guess_windows_ver C
      (mk_metarecord (type meta) (filename meta) (version meta)
         (recordsize meta) (total_entry meta) junk rs (invalid_records meta))
    = Returns OS_GUESS_ME.
Proof.
  intros Hl Hty Hver Hsz. split.
  - rewrite guess_mid_era by assumption. now rewrite Hsz.
  - intros rs junk. rewrite guess_mid_era by assumption. simpl. now rewrite Hsz.
Qed.

(** C4.  With the mid-era version tag the INFO2 tests come in a fixed
    order: record size 280 gives Windows ME; otherwise an empty record set
    gives "Windows 2000, XP or 2003"; otherwise the junk-pattern flag
    chooses Windows 2000 (set) or Windows XP/2003 (unset). *)
Theorem guess_mid_era_order (C : header_consts) (meta : metarecord) :
  case_labels_distinct C →
  type meta = RECYCLE_BIN_TYPE_FILE →
  version meta = VERSION_ME_03 C →
  (recordsize meta = 280 →
     _guess_windows_ver C meta = Returns OS_GUESS_ME) ∧
  (recordsize meta ≠ 280 → records meta = [] →
     _guess_windows_ver C meta = Returns OS_GUESS_2K_03) ∧
  (recordsize meta ≠ 280 → records meta ≠ [] → fill_junk meta = true →
     _guess_windows_ver C meta = Returns OS_GUESS_2K) ∧
  (recordsize meta ≠ 280 → records meta ≠ [] → fill_junk meta = false →
     _guess_windows_ver C meta = Returns OS_GUESS_XP_03).
Proof.
  intros Hl Hty Hver. rewrite guess_mid_era by assumption.
  repeat split.
  - intros ->. reflexivity.
  - intros Hsz ->. apply Z.eqb_neq in Hsz. now rewrite Hsz.
  - intros Hsz Hrs ->. apply Z.eqb_neq in Hsz. rewrite Hsz.
    rewrite bool_decide_eq_false_2; [reflexivity|].
    now destruct (records meta).
  - intros Hsz Hrs ->. apply Z.eqb_neq in Hsz. rewrite Hsz.
    rewrite bool_decide_eq_false_2; [reflexivity|].
    now destruct (records meta).
Qed.

(** Discharges [case_labels_distinct] for concrete constants. *)
Ltac distinct_labels :=
  apply (bool_decide_unpack _); vm_compute; exact I.

Lemma guess_record_size_280_witness :
  _guess_windows_ver Sample.consts Sample.info2_280 = Returns OS_GUESS_ME ∧
  ∀ rs junk,
    _guess_windows_ver Sample.consts
      (mk_metarecord RECYCLE_BIN_TYPE_FILE "INFO2" 5 280 1 junk rs ∅)
    = Returns OS_GUESS_ME.
Proof.
  apply (guess_record_size_280 Sample.consts Sample.info2_280);
    [distinct_labels | reflexivity ..].
Defined.

(** C1 fails as stated.  With 280-byte records, one record in use and the
    junk-pattern flag set, the answer is Windows ME, neither of the two
    answers the flag would choose between; and an empty INFO2 file with
    280-byte records and the Windows 95 tag is answered Windows 95. *)
Lemma guess_record_size_280_counterexample :
  (type Sample.info2_280 = RECYCLE_BIN_TYPE_FILE ∧
   recordsize Sample.info2_280 = 280 ∧
   length (records Sample.info2_280) = 1%nat ∧
   fill_junk Sample.info2_280 = true ∧
   _guess_windows_ver Sample.consts Sample.info2_280 = Returns OS_GUESS_ME ∧
   _guess_windows_ver Sample.consts Sample.info2_280 ≠ Returns OS_GUESS_2K ∧
   _guess_windows_ver Sample.consts Sample.info2_280 ≠ Returns OS_GUESS_XP_03) ∧
  (type Sample.info2_win95_empty = RECYCLE_BIN_TYPE_FILE ∧
   recordsize Sample.info2_win95_empty = 280 ∧
   records Sample.info2_win95_empty = [] ∧
   _guess_windows_ver Sample.consts Sample.info2_win95_empty = Returns OS_GUESS_95 ∧
   _guess_windows_ver Sample.consts Sample.info2_win95_empty ≠ Returns OS_GUESS_ME).
Proof.
  assert (H1 : _guess_windows_ver Sample.consts Sample.info2_280
               = Returns OS_GUESS_ME) by reflexivity.
  assert (H2 : _guess_windows_ver Sample.consts Sample.info2_win95_empty
               = Returns OS_GUESS_95) by reflexivity.
  rewrite H1, H2. repeat split; (reflexivity || discriminate).
Qed.

Lemma guess_mid_era_order_witness :
  (recordsize Sample.info2_800 = 280 →
     _guess_windows_ver Sample.consts Sample.info2_800 = Returns OS_GUESS_ME) ∧
  (recordsize Sample.info2_800 ≠ 280 → records Sample.info2_800 = [] →
     _guess_windows_ver Sample.consts Sample.info2_800 = Returns OS_GUESS_2K_03) ∧
  (recordsize Sample.info2_800 ≠ 280 → records Sample.info2_800 ≠ [] →
     fill_junk Sample.info2_800 = true →
     _guess_windows_ver Sample.consts Sample.info2_800 = Returns OS_GUESS_2K) ∧
  (recordsize Sample.info2_800 ≠ 280 → records Sample.info2_800 ≠ [] →
     fill_junk Sample.info2_800 = false →
     _guess_windows_ver Sample.consts Sample.info2_800 = Returns OS_GUESS_XP_03).
Proof.
  apply (guess_mid_era_order Sample.consts Sample.info2_800);
    [distinct_labels | reflexivity ..].
Defined.

(** The third case of the order, run: 800-byte records, two in use, junk
    seen. *)
Example guess_info2_800 :
  _guess_windows_ver Sample.consts Sample.info2_800 = Returns OS_GUESS_2K.
Proof. reflexivity. Qed.

(** ** The text preamble and the unknown answer *)

(** Where the guess is made (no live probing), the operating system line
    is the guess in words, or the fixed text for the unknown answer. *)
Lemma print_text_header_os_guess (C : header_consts) (X : externals)
    (g : globals) (meta : metarecord) (guess : _os_guess) :
  (G_OS_WIN32 X || __linux__ X) && live_mode g = false →
  _guess_windows_ver C meta = Returns guess →
  _print_text_header_os C X g meta =
    ([Stdout (if bool_decide (guess = OS_GUESS_UNKNOWN)
              then "OS detection failed"
              else "OS Guess: "
                   +:+ fmt_s (os_strings !! Z.to_nat (os_guess_value guess)))],
     Returns tt).
Proof.
  intros Hlive Hguess. unfold _print_text_header_os.
  rewrite Hlive, Hguess. simpl. now case_bool_decide.
Qed.

(** The rest of the preamble only prints: once the operating system line
    is printed, the header returns and all it did was write to standard
    output. *)
Lemma print_text_header_prints (C : header_consts) (X : externals)
    (g : globals) (meta : metarecord) (line : string) :
  _print_text_header_os C X g meta = ([Stdout line], Returns tt) →
  result (_print_text_header C X g meta) = Returns tt ∧
  Forall is_stdout (events (_print_text_header C X g meta)) ∧
  Stdout line ∈ events (_print_text_header C X g meta).
Proof.
  intros Hos. unfold _print_text_header. rewrite Hos.
  unfold g_print, emit, bind, ret, events, result.
  repeat case_match; simplify_eq; simpl;
    (split; [reflexivity|split;
       [repeat constructor; eexists; reflexivity | set_solver]]).
Qed.

(** ** The record printers, step by step *)

Lemma print_text_record_eq (X : externals) (g : globals)
    (record : rbin_struct) (meta : metarecord) :
  _print_text_record X g record meta =
    ([ConvPath (path_source g record) (legacy_encoding g) FORMAT_TEXT;
      Stdout (g_strjoinv (delim g)
                (text_columns X g record meta
                 ++ [Some (default "???" (converted X g FORMAT_TEXT record).1)])
              +:+ LF)],
     Returns (set_error record (converted X g FORMAT_TEXT record).2)).
Proof.
  unfold _print_text_record, call_conv_path, converted, escape_func.
  destruct (conv_path_to_utf8_with_tmpl X _ _ _ _ _) as [path slot].
  reflexivity.
Qed.

Lemma print_xml_record_eq (X : externals) (g : globals)
    (record : rbin_struct) (meta : metarecord) :
  _print_xml_record X g record meta =
    ([ConvPath (path_source g record) (legacy_encoding g) FORMAT_XML;
      Stdout (g_string_str
                (xml_record_open X g record meta
                 ++ [match (converted X g FORMAT_XML record).1 with
                     | Some path =>
                         ">" +:+ LF +:+ "    <path><![CDATA[" +:+ path
                         +:+ "]]></path>" +:+ LF +:+ "  </record>" +:+ LF
                     | None =>
                         ">" +:+ LF +:+ "    <path/>" +:+ LF +:+ "  </record>"
                         +:+ LF
                     end]))],
     Returns (set_error record (converted X g FORMAT_XML record).2)).
Proof.
  unfold _print_xml_record, call_conv_path, converted, escape_func.
  destruct (conv_path_to_utf8_with_tmpl X _ _ _ _ _) as [[path|] slot];
    reflexivity.
Qed.

Lemma print_json_record_eq (X : externals) (g : globals)
    (record : rbin_struct) (meta : metarecord) :
  _print_json_record X g record meta =
    ([ConvPath (path_source g record) (legacy_encoding g) FORMAT_JSON;
      Stdout (g_string_str
                (json_record_open X g record meta
                 ++ [match (converted X g FORMAT_JSON record).1 with
                     | Some path =>
                         ", " +:+ DQ +:+ "path" +:+ DQ +:+ ": " +:+ DQ +:+ path
                         +:+ DQ +:+ "}," +:+ LF
                     | None =>
                         ", " +:+ DQ +:+ "path" +:+ DQ +:+ ": null}," +:+ LF
                     end]))],
     Returns (set_error record (converted X g FORMAT_JSON record).2)).
Proof.
  unfold _print_json_record, call_conv_path, converted, escape_func.
  destruct (conv_path_to_utf8_with_tmpl X _ _ _ _ _) as [[path|] slot];
    reflexivity.
Qed.

Lemma record_func_result (X : externals) (g : globals) (format : out_fmt)
    (record : rbin_struct) (meta : metarecord) :
  format ≠ FORMAT_UNKNOWN →
  result (record_func X g format record meta)
  = Returns (after_print X g format record).
Proof.
  intros Hf. destruct format; [done|..]; simpl.
  - now rewrite print_text_record_eq.
  - now rewrite print_xml_record_eq.
  - now rewrite print_json_record_eq.
Qed.

Lemma record_func_conv_requests (X : externals) (g : globals)
    (format : out_fmt) (record : rbin_struct) (meta : metarecord) :
  format ≠ FORMAT_UNKNOWN →
  conv_requests (events (record_func X g format record meta))
  = [(path_source g record, legacy_encoding g, format)].
Proof.
  intros Hf. destruct format; [done|..]; simpl.
  - now rewrite print_text_record_eq.
  - now rewrite print_xml_record_eq.
  - now rewrite print_json_record_eq.
Qed.

Lemma foreach_record_result (f : rbin_struct → M rbin_struct)
    (upd : rbin_struct → rbin_struct) (l : list rbin_struct) :
  (∀ r, result (f r) = Returns (upd r)) →
  result (foreach_record f l) = Returns (map upd l).
Proof.
  intros Hf. induction l as [|r l IH]; [reflexivity|].
  cbn [foreach_record map].
  rewrite (bind_result _ _ _ (Hf r)).
  rewrite (bind_result _ _ _ IH). reflexivity.
Qed.

Lemma foreach_record_events (f : rbin_struct → M rbin_struct)
    (upd : rbin_struct → rbin_struct) (l : list rbin_struct) :
  (∀ r, result (f r) = Returns (upd r)) →
  events (foreach_record f l) = concat (map (λ r, events (f r)) l).
Proof.
  intros Hf. induction l as [|r l IH]; [reflexivity|].
  cbn [foreach_record map concat].
  rewrite (bind_events _ _ _ (Hf r)).
  rewrite (bind_events _ _ _ (foreach_record_result f upd l Hf)).
  rewrite IH. cbn. now rewrite app_nil_r.
Qed.

(** What [dump_content] can hand back as metadata: the metadata it was
    given (the temporary file could not be created, nothing was printed),
    or the metadata with each record as its callback left it. *)
Lemma dump_content_returns_inv (C : header_consts) (X : externals)
    (g : globals) (meta meta' : metarecord) (r : bool * option GError) :
  result (dump_content C X g meta) = Returns (meta', r) →
  meta' = meta ∨
  (output_format g ≠ FORMAT_UNKNOWN ∧
   meta' = set_records meta
             (map (after_print X g (output_format g)) (records meta))).
Proof.
  unfold dump_content.
  destruct (if output_loc g is Some _ then get_tempfile X else None).
  { simpl. intros [= <- _]. now left. }
  intros H. right.
  assert (Hfmt : output_format g ≠ FORMAT_UNKNOWN).
  { intros E. unfold select_printers in H. now rewrite E in H. }
  split; [assumption|].
  apply bind_returns in H as ([[hd rf] ft] & Hsel & H).
  assert (Hrf : rf = record_func X g (output_format g)).
  { unfold select_printers in Hsel.
    destruct (output_format g); simpl in Hsel; simplify_eq; reflexivity. }
  subst rf.
  apply bind_returns in H as ([] & _ & H).
  assert (Hrec := foreach_record_result
    (λ record, record_func X g (output_format g) record meta)
    (after_print X g (output_format g)) (records meta)
    (λ r, record_func_result X g _ r meta Hfmt)).
  rewrite (bind_result _ _ _ Hrec) in H.
  apply bind_returns in H as ([] & _ & H).
  destruct (output_loc g) as [loc|]; [destruct (clean_tempfile X loc)|];
    simpl in H; now simplify_eq.
Qed.

(** ** Serialization and the metadata *)

(** X21.  Whatever the path converter does, and whatever [dump_content]
    hands back, in any of the three formats: the metadata's own fields and
    the map of unreadable entries are as before, the records are the same
    in number and order, and every field of every record other than the
    attached error is as before.  The attached error is either as before
    or what the path converter left in the record's error slot; where the
    converter leaves the slot of every record as it found it, nothing
    changed at all. *)
Theorem dump_content_error_slots (C : header_consts) (X : externals) (g : globals)
    (meta meta' : metarecord) (r : bool * option GError) :
  result (dump_content C X g meta) = Returns (meta', r) →
  (type meta' = type meta ∧ filename meta' = filename meta ∧
   version meta' = version meta ∧ recordsize meta' = recordsize meta ∧
   total_entry meta' = total_entry meta ∧ fill_junk meta' = fill_junk meta ∧
   invalid_records meta' = invalid_records meta) ∧
  Forall2
    (λ rec rec',
       index_n rec' = index_n rec ∧ index_s rec' = index_s rec ∧
       deltime rec' = deltime rec ∧ gone rec' = gone rec ∧
       filesize rec' = filesize rec ∧
       raw_uni_path rec' = raw_uni_path rec ∧
       raw_legacy_path rec' = raw_legacy_path rec ∧
       (error rec' = error rec ∨
        error rec' =
          (conv_path_to_utf8_with_tmpl X (path_source g rec)
             (legacy_encoding g) (output_format g)
             (escape_func X (output_format g)) (error rec)).2))
    (records meta) (records meta') ∧
  ((∀ rec, rec ∈ records meta →
      (conv_path_to_utf8_with_tmpl X (path_source g rec)
         (legacy_encoding g) (output_format g)
         (escape_func X (output_format g)) (error rec)).2 = error rec) →
   meta' = meta).
Proof.
  intros H. apply dump_content_returns_inv in H as [-> | [_ ->]].
  - repeat split; try reflexivity.
    apply Forall2_same_length_lookup_2; [reflexivity|].
    intros i rec rec' H1 H2. simplify_eq. tauto.
  - repeat split; try reflexivity.
    + simpl. apply Forall2_fmap_r, Forall_Forall2_diag, Forall_forall.
      intros rec _. unfold after_print, converted. simpl. tauto.
    + intros Hsame. destruct meta as [ty fn ve rs te fj recs inv].
      unfold set_records. simpl in *. f_equal.
      rewrite <- (list_fmap_id recs) at 2.
      apply list_fmap_ext. intros i rec Hi.
      unfold after_print, converted.
      rewrite Hsame by (eapply list_elem_of_lookup_2; eassumption).
      now destruct rec.
Qed.

Lemma dump_content_error_slots_witness :
  (type Sample.info2_800_dumped = type Sample.info2_800 ∧
   filename Sample.info2_800_dumped = filename Sample.info2_800 ∧
   version Sample.info2_800_dumped = version Sample.info2_800 ∧
   recordsize Sample.info2_800_dumped = recordsize Sample.info2_800 ∧
   total_entry Sample.info2_800_dumped = total_entry Sample.info2_800 ∧
   fill_junk Sample.info2_800_dumped = fill_junk Sample.info2_800 ∧
   invalid_records Sample.info2_800_dumped = invalid_records Sample.info2_800) ∧
  Forall2
    (λ rec rec',
       index_n rec' = index_n rec ∧ index_s rec' = index_s rec ∧
       deltime rec' = deltime rec ∧ gone rec' = gone rec ∧
       filesize rec' = filesize rec ∧
       raw_uni_path rec' = raw_uni_path rec ∧
       raw_legacy_path rec' = raw_legacy_path rec ∧
       (error rec' = error rec ∨
        error rec' =
          (conv_path_to_utf8_with_tmpl Sample.ext
             (path_source Sample.globals_xml rec)
             (legacy_encoding Sample.globals_xml)
             (output_format Sample.globals_xml)
             (escape_func Sample.ext (output_format Sample.globals_xml))
             (error rec)).2))
    (records Sample.info2_800) (records Sample.info2_800_dumped) ∧
  ((∀ rec, rec ∈ records Sample.info2_800 →
      (conv_path_to_utf8_with_tmpl Sample.ext
         (path_source Sample.globals_xml rec)
         (legacy_encoding Sample.globals_xml)
         (output_format Sample.globals_xml)
         (escape_func Sample.ext (output_format Sample.globals_xml))
         (error rec)).2 = error rec) →
   Sample.info2_800_dumped = Sample.info2_800).
Proof.
  apply (dump_content_error_slots Sample.consts Sample.ext
           Sample.globals_xml Sample.info2_800 Sample.info2_800_dumped
           (true, None)).
  vm_compute. reflexivity.
Defined.

Lemma conv_requests_app (t1 t2 : list event) :
  conv_requests (t1 ++ t2) = conv_requests t1 ++ conv_requests t2.
Proof. apply omap_app. Qed.

(** The XML and JSON preambles only print. *)
Lemma print_json_header_returns (X : externals) (meta : metarecord) :
  result (_print_json_header X meta) = Returns tt ∧
  conv_requests (events (_print_json_header X meta)) = [].
Proof.
  unfold _print_json_header, g_print, emit, bind, ret.
  destruct (0 <=? version meta),
    (bool_decide (type meta = RECYCLE_BIN_TYPE_FILE) && (0 <? total_entry meta));
    split; reflexivity.
Qed.

Lemma print_xml_header_returns (X : externals) (meta : metarecord) :
  result (_print_xml_header X meta) = Returns tt ∧
  conv_requests (events (_print_xml_header X meta)) = [].
Proof. split; reflexivity. Qed.

(** [dump_content] does return: always in the XML and JSON formats and in
    the text format without heading, and in the text format with heading
    whenever the preamble returns. *)
Lemma dump_content_returns (C : header_consts) (X : externals) (g : globals)
    (meta : metarecord) :
  output_format g = FORMAT_XML ∨ output_format g = FORMAT_JSON ∨
  (output_format g = FORMAT_TEXT ∧
   (no_heading g = true ∨ result (_print_text_header C X g meta) = Returns tt)) →
  ∃ meta' r, result (dump_content C X g meta) = Returns (meta', r).
Proof.
  intros Hfmt. unfold dump_content.
  destruct (if output_loc g is Some _ then get_tempfile X else None);
    [by eauto|].
  assert (Hrec : ∀ format, format ≠ FORMAT_UNKNOWN →
            result (foreach_record
                      (λ record, record_func X g format record meta)
                      (records meta))
            = Returns (map (after_print X g format) (records meta))).
  { intros format Hf. apply foreach_record_result.
    intros rec. now apply record_func_result. }
  assert (Hend : ∀ meta0 : metarecord,
            ∃ (meta' : metarecord) (r : bool * option GError),
            result (match output_loc g with
                    | Some loc =>
                        match clean_tempfile X loc with
                        | None => ret (meta0, (true, None))
                        | Some e => ret (meta0, (false, Some e))
                        end
                    | None => ret (meta0, (true, None))
                    end) = Returns (meta', r)).
  { intros meta0. destruct (output_loc g) as [loc|];
      [destruct (clean_tempfile X loc)|]; by eauto. }
  unfold select_printers.
  destruct Hfmt as [E | [E | [E Hhd]]]; rewrite E.
  - rewrite (bind_result _ _ _ (result_ret _)).
    rewrite (bind_result (_print_xml_header X meta) _ tt) by reflexivity.
    rewrite (bind_result _ _ _ (Hrec FORMAT_XML ltac:(done))).
    rewrite (bind_result _print_xml_footer _ tt) by reflexivity.
    apply Hend.
  - rewrite (bind_result _ _ _ (result_ret _)).
    rewrite (bind_result (_print_json_header X meta) _ tt)
      by apply print_json_header_returns.
    rewrite (bind_result _ _ _ (Hrec FORMAT_JSON ltac:(done))).
    rewrite (bind_result _print_json_footer _ tt) by reflexivity.
    apply Hend.
  - rewrite (bind_result _ _ _ (result_ret _)).
    assert (Hh : result (if (if no_heading g then None
                             else Some (_print_text_header C X g))
                           is Some f then f meta else ret tt) = Returns tt).
    { destruct Hhd as [-> | Hhd]; [reflexivity|].
      now destruct (no_heading g). }
    rewrite (bind_result _ _ tt Hh).
    rewrite (bind_result _ _ _ (Hrec FORMAT_TEXT ltac:(done))).
    rewrite (bind_result (ret tt) _ tt) by reflexivity.
    apply Hend.
Qed.




(** ** The source of the path conversion *)

(** C8.  Each of the three record printers asks for exactly one
    conversion.  With a legacy codepage configured it is the conversion of
    the raw legacy path from that codepage; with none it is the conversion
    of the raw Unicode path, and the legacy path is not converted. *)
Theorem conversion_source_by_codepage (X : externals) (g : globals)
    (record : rbin_struct) (meta : metarecord) :
  (∀ enc, legacy_encoding g = Some enc →
     conv_requests (events (_print_text_record X g record meta))
     = [(raw_legacy_path record, Some enc, FORMAT_TEXT)] ∧
     conv_requests (events (_print_xml_record X g record meta))
     = [(raw_legacy_path record, Some enc, FORMAT_XML)] ∧
     conv_requests (events (_print_json_record X g record meta))
     = [(raw_legacy_path record, Some enc, FORMAT_JSON)]) ∧
  (legacy_encoding g = None →
     conv_requests (events (_print_text_record X g record meta))
     = [(raw_uni_path record, None, FORMAT_TEXT)] ∧
     conv_requests (events (_print_xml_record X g record meta))
     = [(raw_uni_path record, None, FORMAT_XML)] ∧
     conv_requests (events (_print_json_record X g record meta))
     = [(raw_uni_path record, None, FORMAT_JSON)]).
Proof.
  rewrite print_text_record_eq, print_xml_record_eq, print_json_record_eq.
  unfold path_source. split.
  - intros enc ->. repeat split.
  - intros ->. repeat split.
Qed.

(** The same over a whole dump: one conversion per record, in record
    order, each of the source the codepage setting selects. *)
Lemma dump_content_conv_requests (C : header_consts) (X : externals)
    (g : globals) (meta : metarecord) :
  output_format g = FORMAT_XML ∨ output_format g = FORMAT_JSON →
  (if output_loc g is Some _ then get_tempfile X else None) = None →
  conv_requests (events (dump_content C X g meta))
  = map (λ record,
           (if legacy_encoding g is Some _ then raw_legacy_path record
            else raw_uni_path record,
            legacy_encoding g, output_format g))
      (records meta).
Proof.
  intros Hfmt Htmp. unfold dump_content. rewrite Htmp.
  assert (Hne : output_format g ≠ FORMAT_UNKNOWN)
    by (destruct Hfmt as [E | E]; rewrite E; done).
  assert (Hres := foreach_record_result
    (λ record, record_func X g (output_format g) record meta)
    (after_print X g (output_format g)) (records meta)
    (λ r, record_func_result X g _ r meta Hne)).
  assert (Hev := foreach_record_events
    (λ record, record_func X g (output_format g) record meta)
    (after_print X g (output_format g)) (records meta)
    (λ r, record_func_result X g _ r meta Hne)).
  assert (Hconv : conv_requests (events (foreach_record
            (λ record, record_func X g (output_format g) record meta)
            (records meta)))
          = map (λ record, (path_source g record, legacy_encoding g,
                            output_format g)) (records meta)).
  { rewrite Hev. clear Hres Hev. induction (records meta) as [|rec l IH];
      [reflexivity|].
    cbn [map concat]. rewrite conv_requests_app, IH.
    now rewrite record_func_conv_requests. }
  unfold select_printers.
  destruct Hfmt as [E | E]; rewrite E in *;
    rewrite (bind_events _ _ _ (result_ret _));
    [ rewrite (bind_events (_print_xml_header X meta) _ tt) by reflexivity
    | rewrite (bind_events (_print_json_header X meta) _ tt)
        by apply print_json_header_returns ];
    rewrite (bind_events _ _ _ Hres);
    [ rewrite (bind_events _print_xml_footer _ tt) by reflexivity
    | rewrite (bind_events _print_json_footer _ tt) by reflexivity ];
    rewrite !conv_requests_app, Hconv.
  - rewrite (proj2 (print_xml_header_returns X meta)).
    destruct (output_loc g) as [loc|]; [destruct (clean_tempfile X loc)|];
      simpl; now rewrite app_nil_r.
  - rewrite (proj2 (print_json_header_returns X meta)).
    destruct (output_loc g) as [loc|]; [destruct (clean_tempfile X loc)|];
      simpl; now rewrite app_nil_r.
Qed.

(** ** The size column *)




(** The two records of the setting, printed as TSV rows. *)
Example text_rows :
  stdout_text (events (_print_text_record Sample.ext Sample.globals_text
                         Sample.record_truncated Sample.info2_800))
  = ["1" +:+ TAB +:+ "1700000000" +:+ TAB +:+ "TRUE" +:+ TAB +:+ "???"
     +:+ TAB +:+ "???" +:+ LF] ∧
  stdout_text (events (_print_text_record Sample.ext Sample.globals_text
                         Sample.record_fine Sample.info2_800))
  = ["2" +:+ TAB +:+ "1700000000" +:+ TAB +:+ "FALSE" +:+ TAB +:+ "1234"
     +:+ TAB +:+ "C:\é" +:+ LF].
Proof. split; vm_compute; reflexivity. Qed.

(** ** Exit code *)

Lemma dump_rec_error_result (record : rbin_struct) (flag : bool) :
  result (_dump_rec_error record flag) = Returns (flag || has_error record).
Proof.
  unfold _dump_rec_error, has_error.
  destruct (error record) as [e|]; [|now rewrite orb_false_r].
  unfold g_printerr, emit, bind, ret.
  destruct flag, (negb (index_n record =? 0)); reflexivity.
Qed.

Lemma dump_rec_errors_result (l : list rbin_struct) (flag : bool) :
  result (dump_rec_errors l flag) = Returns (flag || existsb has_error l).
Proof.
  revert flag. induction l as [|record l IH]; intros flag; simpl.
  - now rewrite orb_false_r.
  - rewrite (bind_result _ _ _ (dump_rec_error_result record flag)).
    rewrite IH. now rewrite orb_assoc.
Qed.

Lemma dump_invalid_records_result (l : list (string * GError)) :
  result (dump_invalid_records l) = Returns tt.
Proof.
  induction l as [|[key val] l IH]; [reflexivity|].
  cbn [dump_invalid_records]. unfold g_printerr. rewrite bind_emit. exact IH.
Qed.

(** What [_has_record_error] answers: whether the map of unreadable
    entries has an entry or some record carries an error. *)
Lemma has_record_error_result (meta : metarecord) :
  result (_has_record_error meta)
  = Returns (negb (Nat.eqb (size (invalid_records meta)) 0)
             || existsb has_error (records meta)).
Proof.
  unfold _has_record_error.
  destruct (negb (Nat.eqb (size (invalid_records meta)) 0)).
  - erewrite bind_result; [apply dump_rec_errors_result|].
    unfold g_printerr. rewrite bind_emit. simpl.
    erewrite bind_result; [reflexivity|apply dump_invalid_records_result].
  - erewrite bind_result; [apply dump_rec_errors_result|reflexivity].
Qed.

(** A fatal error never maps to success or to the dubious-data code. *)
Lemma get_exit_code_fatal (C : header_consts) (e : GError) :
  ∃ code, result (_get_exit_code C (Some e)) = Returns code ∧
          code ≠ EXIT_OK ∧ code ≠ EXIT_ERR_DUBIOUS_DATA.
Proof.
  unfold _get_exit_code, g_printerr, g_critical. rewrite bind_emit.
  repeat case_match; try rewrite bind_emit; simpl;
    eexists; (split; [reflexivity | split; discriminate]).
Qed.

(** C3.  Without a fatal error, a record that carries an error or an entry
    in the map of unreadable entries makes the exit code the dubious-data
    code, which is not the success code; with a fatal error the exit code
    is the one of the fatal error, which is never the dubious-data code
    (nor success), whatever the records hold. *)
Theorem dubious_data_exit_code (C : header_consts) (meta : metarecord) :
  ((∃ record, record ∈ records meta ∧ is_Some (error record)) ∨
   invalid_records meta ≠ ∅ →
   result (rifiuti_cleanup C meta (Some None)) = Returns EXIT_ERR_DUBIOUS_DATA) ∧
  EXIT_ERR_DUBIOUS_DATA ≠ EXIT_OK ∧
  (∀ e : GError,
     result (rifiuti_cleanup C meta (Some (Some e)))
     = result (_get_exit_code C (Some e)) ∧
     result (rifiuti_cleanup C meta (Some (Some e)))
     ≠ Returns EXIT_ERR_DUBIOUS_DATA ∧
     result (rifiuti_cleanup C meta (Some (Some e))) ≠ Returns EXIT_OK).
Proof.
  split; [|split; [discriminate|]].
  - intros Hdub. unfold rifiuti_cleanup.
    rewrite (bind_result (_get_exit_code C None) _ EXIT_OK) by reflexivity.
    rewrite (bind_result _ _ _ (has_record_error_result meta)).
    assert (Hflag : negb (Nat.eqb (size (invalid_records meta)) 0)
                    || existsb has_error (records meta) = true).
    { destruct Hdub as [(record & Hin & Herr) | Hne].
      - apply orb_true_iff. right. apply existsb_exists.
        exists record. split; [now apply list_elem_of_In|].
        unfold has_error. now destruct Herr as [e ->].
      - apply orb_true_iff. left. apply negb_true_iff, Nat.eqb_neq.
        now apply map_size_non_empty_iff. }
    now rewrite Hflag.
  - intros e. destruct (get_exit_code_fatal C e) as (code & Hcode & Hok & Hdub).
    unfold rifiuti_cleanup.
    rewrite (bind_result _ _ _ Hcode).
    rewrite (bind_result _ _ _ (has_record_error_result meta)).
    rewrite Hcode. simpl.
    rewrite bool_decide_eq_false_2 by assumption.
    rewrite andb_false_r. repeat split; congruence.
Qed.

(** The converse of the first part: without a fatal error, without record
    errors and without unreadable entries the exit code is success. *)
Lemma clean_exit_code (C : header_consts) (meta : metarecord) :
  Forall (λ record, error record = None) (records meta) →
  invalid_records meta = ∅ →
  result (rifiuti_cleanup C meta (Some None)) = Returns EXIT_OK.
Proof.
  intros Hrec Hinv. unfold rifiuti_cleanup.
  rewrite (bind_result (_get_exit_code C None) _ EXIT_OK) by reflexivity.
  rewrite (bind_result _ _ _ (has_record_error_result meta)).
  rewrite Hinv, map_size_empty. simpl.
  replace (existsb has_error (records meta)) with false; [reflexivity|].
  symmetry. apply not_true_is_false. intros Hex.
  apply existsb_exists in Hex as (record & Hin & Herr).
  rewrite Forall_forall in Hrec.
  apply list_elem_of_In, Hrec in Hin.
  unfold has_error in Herr. now rewrite Hin in Herr.
Qed.

Lemma dubious_data_exit_code_witness :
  result (rifiuti_cleanup Sample.consts Sample.info2_800_dumped (Some None))
  = Returns EXIT_ERR_DUBIOUS_DATA ∧
  result (rifiuti_cleanup Sample.consts Sample.info2_unreadable (Some None))
  = Returns EXIT_ERR_DUBIOUS_DATA.
Proof.
  split.
  - apply (dubious_data_exit_code Sample.consts Sample.info2_800_dumped).
    left. exists (set_error Sample.record_truncated (Some Sample.truncated_error)).
    split; [left | eexists; reflexivity].
  - apply (dubious_data_exit_code Sample.consts Sample.info2_unreadable).
    right. intros Hempty.
    apply (f_equal (λ m : gmap string GError, m !! "|820|1620")) in Hempty.
    vm_compute in Hempty. discriminate.
Defined.

(** The same two runs, and one with a fatal option error on top: what is
    written to standard error and the code that comes back. *)
Example cleanup_runs :
  rifiuti_cleanup Sample.consts Sample.info2_unreadable (Some None)
  = ([Stderr ("Error occurred in following record:" +:+ LF);
      Stderr ("byte range 820 - 1620: Record is not a multiple of record size"
              +:+ LF)],
     Returns EXIT_ERR_DUBIOUS_DATA) ∧
  rifiuti_cleanup Sample.consts Sample.info2_800_dumped (Some None)
  = ([Stderr (LF +:+ "Error occurred in following record:" +:+ LF);
      Stderr (" 1: Path contains character(s) that could not be interpreted "
              +:+ "in UTF-16LE encoding" +:+ LF)],
     Returns EXIT_ERR_DUBIOUS_DATA) ∧
  result (rifiuti_cleanup Sample.consts Sample.info2_unreadable
            (Some (Some (mkGError G_OPTION_ERROR G_OPTION_ERROR_FAILED
                           "Multiple encoding options disallowed."))))
  = Returns EXIT_ERR_ARG.
Proof. repeat split; vm_compute; reflexivity. Qed.

(** ** FILETIME conversion *)

Lemma wrap_int64_small (z : Z) :
  INT64_MIN ≤ z ≤ INT64_MAX → wrap_int64 z = z.
Proof.
  unfold wrap_int64, INT64_MIN, INT64_MAX. intros H.
  rewrite Z.mod_small; lia.
Qed.

Lemma wrap_int64_below (z : Z) :
  INT64_MIN - 2 ^ 64 ≤ z < INT64_MIN → wrap_int64 z = z + 2 ^ 64.
Proof.
  unfold wrap_int64, INT64_MIN. intros H.
  replace (z + 2 ^ 63) with ((z + 2 ^ 63 + 2 ^ 64) + (-1) * 2 ^ 64) by lia.
  rewrite Z.mod_add by lia. rewrite Z.mod_small; lia.
Qed.

(** Without overflow in the subtraction, the local [t] is the quotient of
    the claim. *)
Lemma win_filetime_to_unix_exact (win_filetime : Z) :
  INT64_MIN + FILETIME_UNIX_DIFF ≤ win_filetime ≤ INT64_MAX →
  win_filetime_to_unix win_filetime
  = (win_filetime - 116444736000000000) ÷ 10000000.
Proof.
  intros H. unfold win_filetime_to_unix.
  rewrite wrap_int64_small; [reflexivity|].
  unfold INT64_MIN, INT64_MAX, FILETIME_UNIX_DIFF in *. lia.
Qed.

Lemma new_from_unix_utc_some (t : Z) :
  GDATETIME_MIN_UNIX ≤ t ≤ GDATETIME_MAX_UNIX →
  g_date_time_new_from_unix_utc t = Some (mkGDateTime t TZ_UTC).
Proof.
  intros [Hlo Hhi]. unfold g_date_time_new_from_unix_utc.
  apply Z.leb_le in Hlo, Hhi. now rewrite Hlo, Hhi.
Qed.

Lemma new_from_unix_utc_none (t : Z) :
  t < GDATETIME_MIN_UNIX ∨ GDATETIME_MAX_UNIX < t →
  g_date_time_new_from_unix_utc t = None.
Proof.
  intros H. unfold g_date_time_new_from_unix_utc.
  destruct H as [H | H].
  - apply Z.leb_gt in H. now rewrite H.
  - apply Z.leb_gt in H. now rewrite H, andb_false_r.
Qed.

(** C6 (as amended).  For a signed 64-bit tick count between
    [FILETIME_FIRST] and [FILETIME_LAST] the function returns the UTC
    instant whose Unix second count is (ticks - 116444736000000000)
    divided by 10000000, truncating; for every tick count for which the
    subtraction does not overflow that quotient is the second count handed
    to GLib; for every other signed 64-bit tick count outside the two
    bounds no instant is returned. *)
Theorem win_filetime_to_gdatetime_range (win_filetime : Z) :
  INT64_MIN ≤ win_filetime ≤ INT64_MAX →
  (FILETIME_FIRST ≤ win_filetime ≤ FILETIME_LAST →
     win_filetime_to_gdatetime win_filetime
     = Some (mkGDateTime ((win_filetime - 116444736000000000) ÷ 10000000)
               TZ_UTC)) ∧
  (INT64_MIN + 116444736000000000 ≤ win_filetime →
     win_filetime_to_unix win_filetime
     = (win_filetime - 116444736000000000) ÷ 10000000) ∧
  (win_filetime < FILETIME_FIRST ∨ FILETIME_LAST < win_filetime →
     win_filetime_to_gdatetime win_filetime = None).
Proof.
  intros Hrange.
  unfold INT64_MIN, INT64_MAX, FILETIME_FIRST, FILETIME_LAST in *.
  split; [|split].
  - intros Hin. unfold win_filetime_to_gdatetime.
    rewrite win_filetime_to_unix_exact
      by (unfold INT64_MIN, INT64_MAX, FILETIME_UNIX_DIFF; lia).
    apply new_from_unix_utc_some.
    unfold GDATETIME_MIN_UNIX, GDATETIME_MAX_UNIX. split.
    + change (-62135596800) with ((-621355968009999999) ÷ 10000000).
      apply Z.quot_le_mono; lia.
    + change 253402300799 with (2534023007999999999 ÷ 10000000).
      apply Z.quot_le_mono; lia.
  - intros Hlow. apply win_filetime_to_unix_exact.
    unfold INT64_MIN, INT64_MAX, FILETIME_UNIX_DIFF. lia.
  - intros Hout. unfold win_filetime_to_gdatetime.
    apply new_from_unix_utc_none.
    unfold GDATETIME_MIN_UNIX, GDATETIME_MAX_UNIX.
    destruct Hout as [Hlt | Hgt].
    + destruct (Z_lt_le_dec (win_filetime - 116444736000000000) (- 2 ^ 63))
        as [Hover | Hfits].
      * (* the subtraction overflows and wraps to a large positive number *)
        right. unfold win_filetime_to_unix, FILETIME_UNIX_DIFF.
        rewrite wrap_int64_below by (unfold INT64_MIN; lia).
        assert (910692730085
                ≤ (win_filetime - 116444736000000000 + 2 ^ 64) ÷ 10000000);
          [|lia].
        change 910692730085 with (9106927300854775808 ÷ 10000000).
        apply Z.quot_le_mono; lia.
      * left. rewrite win_filetime_to_unix_exact
          by (unfold INT64_MIN, INT64_MAX, FILETIME_UNIX_DIFF; lia).
        assert ((win_filetime - 116444736000000000) ÷ 10000000
                ≤ -62135596801); [|lia].
        change (-62135596801) with ((-621355968010000000) ÷ 10000000).
        apply Z.quot_le_mono; lia.
    + right. rewrite win_filetime_to_unix_exact
        by (unfold INT64_MIN, INT64_MAX, FILETIME_UNIX_DIFF; lia).
      assert (253402300800
              ≤ (win_filetime - 116444736000000000) ÷ 10000000); [|lia].
      change 253402300800 with (2534023008000000000 ÷ 10000000).
      apply Z.quot_le_mono; lia.
Qed.

Lemma win_filetime_to_gdatetime_range_witness :
  (FILETIME_FIRST ≤ 133000000000000000 ≤ FILETIME_LAST →
     win_filetime_to_gdatetime 133000000000000000
     = Some (mkGDateTime ((133000000000000000 - 116444736000000000) ÷ 10000000)
               TZ_UTC)) ∧
  (INT64_MIN + 116444736000000000 ≤ 133000000000000000 →
     win_filetime_to_unix 133000000000000000
     = (133000000000000000 - 116444736000000000) ÷ 10000000) ∧
  (133000000000000000 < FILETIME_FIRST ∨ FILETIME_LAST < 133000000000000000 →
     win_filetime_to_gdatetime 133000000000000000 = None).
Proof.
  apply (win_filetime_to_gdatetime_range 133000000000000000).
  vm_compute. split; discriminate.
Defined.

(** A tick count of 2022: 1655526400 seconds after the Unix epoch. *)
Example win_filetime_2022 :
  win_filetime_to_gdatetime 133000000000000000
  = Some (mkGDateTime 1655526400 TZ_UTC).
Proof. reflexivity. Qed.

(** C6 fails as stated.  At the least signed 64-bit tick count the
    subtraction wraps around: the second count computed is 910692730085
    where the quotient of the claim is -933981677285, and no instant is
    returned.  At the greatest tick count nothing wraps, and still no
    instant is returned: the second count lies past the year 9999. *)
Lemma win_filetime_to_gdatetime_counterexample :
  win_filetime_to_unix INT64_MIN = 910692730085 ∧
  (INT64_MIN - 116444736000000000) ÷ 10000000 = -933981677285 ∧
  win_filetime_to_gdatetime INT64_MIN = None ∧
  win_filetime_to_unix INT64_MAX
  = (INT64_MAX - 116444736000000000) ÷ 10000000 ∧
  win_filetime_to_gdatetime INT64_MAX = None.
Proof. repeat split. Qed.

(** ** The legacy codepage option *)

(** C7 (as amended).  [_check_legacy_encoding] runs at option parsing,
    touches no record and asks for no path conversion.  A duplicate
    encoding option, an empty identifier, or a codepage that fails the
    self-check (unknown to the runtime, or not ASCII compatible) is
    rejected with an option error, and the stored legacy encoding is left
    as it was: unset if no earlier encoding option had stored one.  The
    encoding is stored, and the callback succeeds, exactly when the option
    is the first encoding option, is not empty and passes the self-check. *)
Theorem check_legacy_encoding_cases (X : externals) (g : globals) (enc : string) :
  (seen_encoding g = true →
     _check_legacy_encoding X g enc
     = ret (g, CB_FALSE G_OPTION_ERROR G_OPTION_ERROR_FAILED
                 "Multiple encoding options disallowed.")) ∧
  (seen_encoding g = false → enc = "" →
     _check_legacy_encoding X g enc
     = ret (set_seen_encoding g true,
            CB_FALSE G_OPTION_ERROR G_OPTION_ERROR_BAD_VALUE
              "Empty encoding option disallowed.")) ∧
  (seen_encoding g = false → enc ≠ "" →
     (enc_is_ascii_compatible X enc).1 = false →
     self_check_failure (enc_is_ascii_compatible X enc).2 = true →
     ∃ msg,
       _check_legacy_encoding X g enc
       = ret (set_seen_encoding g true,
              CB_FALSE G_OPTION_ERROR G_OPTION_ERROR_BAD_VALUE msg)) ∧
  (seen_encoding g = false → enc ≠ "" →
     (enc_is_ascii_compatible X enc).1 = true →
     _check_legacy_encoding X g enc
     = ret (set_legacy_encoding (set_seen_encoding g true) (Some enc), CB_TRUE)) ∧
  (∀ g' r,
     result (_check_legacy_encoding X g enc) = Returns (g', r) →
     events (_check_legacy_encoding X g enc) = [] ∧
     (r.1 = false → rejected r ∧ legacy_encoding g' = legacy_encoding g) ∧
     (r.1 = true → legacy_encoding g' = Some enc) ∧
     (r.1 = true ↔
      seen_encoding g = false ∧ enc ≠ "" ∧
      (enc_is_ascii_compatible X enc).1 = true)).
Proof.
  unfold _check_legacy_encoding, self_check_failure, rejected.
  split; [|split; [|split; [|split]]].
  - intros ->. reflexivity.
  - intros -> ->. reflexivity.
  - intros -> Hne Hfail Hkind.
    rewrite bool_decide_eq_false_2 by assumption.
    destruct (enc_is_ascii_compatible X enc) as [ok conv_err].
    simpl in Hfail, Hkind. subst ok.
    destruct (g_error_matches conv_err G_CONVERT_ERROR
                G_CONVERT_ERROR_NO_CONVERSION); [by eauto|].
    simpl in Hkind. rewrite Hkind. by eauto.
  - intros -> Hne Hok.
    rewrite bool_decide_eq_false_2 by assumption.
    destruct (enc_is_ascii_compatible X enc) as [ok conv_err].
    simpl in Hok. now subst ok.
  - intros g' r. destruct (seen_encoding g) eqn:Hseen.
    { simpl. intros [= <- <-]. simpl. repeat split; try done; eauto.
      intros (? & _); done. }
    case_bool_decide as Henc.
    { simpl. intros [= <- <-]. simpl. repeat split; try done; eauto.
      intros (_ & ? & _); done. }
    destruct (enc_is_ascii_compatible X enc) as [ok conv_err]. simpl.
    destruct ok.
    { simpl. intros [= <- <-]. simpl. repeat split; done. }
    repeat case_match; simpl; intros [= <- <-]; simpl;
      (repeat split; try done; eauto; intros (_ & _ & ?); done).
Qed.

Lemma check_legacy_encoding_cases_witness :
  _check_legacy_encoding Sample.ext initial_globals "ISO-8859-1"
  = ret (set_legacy_encoding (set_seen_encoding initial_globals true)
           (Some "ISO-8859-1"), CB_TRUE) ∧
  (∃ msg,
     _check_legacy_encoding Sample.ext initial_globals "UTF-16LE"
     = ret (set_seen_encoding initial_globals true,
            CB_FALSE G_OPTION_ERROR G_OPTION_ERROR_BAD_VALUE msg)) ∧
  _check_legacy_encoding Sample.ext initial_globals ""
  = ret (set_seen_encoding initial_globals true,
         CB_FALSE G_OPTION_ERROR G_OPTION_ERROR_BAD_VALUE
           "Empty encoding option disallowed.").
Proof.
  split; [|split].
  - apply (check_legacy_encoding_cases Sample.ext initial_globals "ISO-8859-1");
      [reflexivity | discriminate | vm_compute; reflexivity].
  - apply (check_legacy_encoding_cases Sample.ext initial_globals "UTF-16LE");
      [reflexivity | discriminate | vm_compute; reflexivity
      | vm_compute; reflexivity].
  - apply (check_legacy_encoding_cases Sample.ext initial_globals "");
      reflexivity.
Defined.

(** C7 fails as stated.  On the command line [-l ISO-8859-1 -l ASCII] the
    second option is a duplicate and is rejected, but the stored encoding
    is not unset: it is the one the first option stored.  And ASCII passes
    the self-check without being stored. *)
Lemma check_legacy_encoding_counterexample :
  ∃ g',
    parse_options Sample.ext initial_globals
      [OPT_legacy_filename "ISO-8859-1"; OPT_legacy_filename "ASCII"]
    = ret (g', CB_FALSE G_OPTION_ERROR G_OPTION_ERROR_FAILED
                 "Multiple encoding options disallowed.") ∧
    legacy_encoding g' = Some "ISO-8859-1" ∧
    legacy_encoding g' ≠ None ∧
    (enc_is_ascii_compatible Sample.ext "ASCII").1 = true.
Proof.
  eexists. split; [vm_compute; reflexivity|].
  split; [reflexivity|]. split; [discriminate|]. vm_compute. reflexivity.
Qed.

(** ** The output format is written once *)

Lemma set_out_format_spec (X : externals) (g : globals) (d : out_fmt) :
  let '(g', r) := _set_out_format X g d in
  (output_format g = d ∨ output_format g = FORMAT_UNKNOWN →
     r = CB_TRUE ∧ g' = set_output_format g d) ∧
  (output_format g ≠ d → output_format g ≠ FORMAT_UNKNOWN →
     g' = g ∧ rejected r ∧
     ∃ msg, r = CB_FALSE G_OPTION_ERROR G_OPTION_ERROR_FAILED msg).
Proof.
  unfold _set_out_format, rejected.
  case_bool_decide as Hsame; [|case_bool_decide as Hunk].
  - split; [|done]. intros _. split; [reflexivity|].
    destruct g. simpl in *. now subst.
  - split; [|done]. intros _. split; reflexivity.
  - split; [intros [?|?]; done|]. intros _ _.
    split; [reflexivity|]. split; [|by eauto].
    split; [reflexivity|]. by eauto.
Qed.

(** After [_set_out_format]: a format that was set stays; an accepted
    request leaves the requested format stored. *)
Lemma set_out_format_stored (X : externals) (g : globals) (d : out_fmt) :
  (output_format g ≠ FORMAT_UNKNOWN →
     output_format (_set_out_format X g d).1 = output_format g) ∧
  ((_set_out_format X g d).2.1 = true →
     output_format (_set_out_format X g d).1 = d).
Proof.
  pose proof (set_out_format_spec X g d) as H.
  destruct (_set_out_format X g d) as [g' r]. destruct H as [Hok Hrej]. simpl.
  destruct (decide (output_format g = d)) as [Heq | Hne].
  - destruct (Hok (or_introl Heq)) as [-> ->]. simpl. split; congruence.
  - destruct (decide (output_format g = FORMAT_UNKNOWN)) as [Hunk | Hset].
    + destruct (Hok (or_intror Hunk)) as [-> ->]. simpl. split; congruence.
    + destruct (Hrej Hne Hset) as (-> & [Hfalse _] & _).
      split; [reflexivity | congruence].
Qed.

Lemma requested_format_known (o : option_arg) (d : out_fmt) :
  requested_format o = Some d → d ≠ FORMAT_UNKNOWN.
Proof.
  destruct o; simpl; repeat case_match; intros [= <-]; discriminate.
Qed.

Lemma check_legacy_encoding_format (X : externals) (g g' : globals)
    (enc : string) (r : cb_result) :
  result (_check_legacy_encoding X g enc) = Returns (g', r) →
  output_format g' = output_format g.
Proof.
  unfold _check_legacy_encoding.
  repeat case_match; simpl; intros [= <- <-]; reflexivity.
Qed.

(** Concludes about a callback that ends in [_set_out_format]. *)
Ltac by_set_out_format :=
  let H := fresh "H" in
  let HH := fresh "HH" in
  intros [= H];
  match type of H with
  | _set_out_format ?X ?G ?D = _ =>
      pose proof (set_out_format_stored X G D) as HH;
      rewrite H in HH; exact HH
  end.

(** One callback: a stored format stays, and an accepted option leaves
    stored the format it asked for, if it asked for one. *)
Lemma run_callback_format (X : externals) (g g' : globals) (o : option_arg)
    (r : cb_result) :
  result (run_callback X g o) = Returns (g', r) →
  (output_format g ≠ FORMAT_UNKNOWN → output_format g' = output_format g) ∧
  (r.1 = true →
   output_format g' = default (output_format g) (requested_format o)).
Proof.
  destruct o as [value | value | | opt_name | value | enc]; simpl.
  - unfold _set_output_path.
    repeat case_match; intros [= <- <-]; split;
      (reflexivity || discriminate).
  - unfold _set_opt_delim. destruct (seen_delim g).
    + intros [= <- <-]. split; [reflexivity | discriminate].
    + by_set_out_format.
  - unfold _set_opt_noheading. by_set_out_format.
  - unfold _option_deprecated.
    destruct (bool_decide (opt_name = "-x") || bool_decide (opt_name = "--xml")).
    + unfold g_warning. rewrite bind_emit. simpl. by_set_out_format.
    + intros [= <- <-]. split; reflexivity.
  - unfold _set_opt_format.
    case_bool_decide as Ht; [subst; by_set_out_format|].
    case_bool_decide as Hs; [subst; by_set_out_format|].
    case_bool_decide as Hc; [subst; by_set_out_format|].
    simpl.
    case_bool_decide as Hx; [by_set_out_format|].
    case_bool_decide as Hj; [by_set_out_format|].
    intros [= <- <-]. split; [reflexivity | discriminate].
  - intros H. apply check_legacy_encoding_format in H.
    split; intros _; exact H.
Qed.

Lemma parse_options_format (X : externals) (args : list option_arg) :
  ∀ g g' r,
    result (parse_options X g args) = Returns (g', r) →
    (output_format g ≠ FORMAT_UNKNOWN →
       output_format g' = output_format g) ∧
    (output_format g = FORMAT_UNKNOWN → r.1 = true →
       output_format g'
       = default FORMAT_TEXT (head (omap requested_format args))).
Proof.
  induction args as [|o rest IH]; intros g g' r.
  - simpl. unfold _set_def_output_opts. intros [= <- <-].
    split.
    + intros Hset. destruct (delim g); simpl;
        now rewrite bool_decide_eq_false_2.
    + intros Hunk _. destruct (delim g); simpl;
        now rewrite bool_decide_eq_true_2.
  - cbn [parse_options]. intros H.
    apply bind_returns in H as ([g1 r1] & Hcb & H).
    apply run_callback_format in Hcb as [Hkeep Hreq].
    destruct (r1.1) eqn:Hr1.
    + apply IH in H as [IHkeep IHfirst]. split.
      * intros Hset. rewrite IHkeep; [auto | rewrite Hkeep; auto].
      * intros Hunk Hr. specialize (Hreq eq_refl).
        change (omap requested_format (o :: rest))
          with (match requested_format o with
                | Some d => d :: omap requested_format rest
                | None => omap requested_format rest
                end).
        destruct (requested_format o) as [d|] eqn:Ho; simpl in Hreq |- *.
        -- rewrite IHkeep; [assumption|]. rewrite Hreq.
           eapply requested_format_known; eassumption.
        -- apply IHfirst; [congruence | assumption].
    + simpl in H. injection H as <- <-. split.
      * assumption.
      * intros _ Hr. congruence.
Qed.

(** C10.  The stored output format is written once.  While none is
    stored, a request for a format stores it; once a format is stored, a
    request for the same format succeeds and changes nothing, and a
    request for a different one fails with an option error and leaves the
    stored format alone.  The post-parse hook turns "none stored" into
    text and leaves a stored format alone.  Over a whole command line: a
    format that is stored is never replaced, and after successful parsing
    the stored format is the first one an option asked for, or text if no
    option asked for any. *)
Theorem output_format_write_once (X : externals) :
  (∀ g d,
     (output_format g = FORMAT_UNKNOWN →
        _set_out_format X g d = (set_output_format g d, CB_TRUE)) ∧
     (output_format g = d → _set_out_format X g d = (g, CB_TRUE)) ∧
     (output_format g ≠ FORMAT_UNKNOWN → output_format g ≠ d →
        (_set_out_format X g d).1 = g ∧
        rejected (_set_out_format X g d).2)) ∧
  (∀ g,
     (_set_def_output_opts g).2 = CB_TRUE ∧
     (output_format g = FORMAT_UNKNOWN →
        output_format (_set_def_output_opts g).1 = FORMAT_TEXT) ∧
     (output_format g ≠ FORMAT_UNKNOWN →
        output_format (_set_def_output_opts g).1 = output_format g)) ∧
  (∀ args g g' r,
     result (parse_options X g args) = Returns (g', r) →
     (output_format g ≠ FORMAT_UNKNOWN →
        output_format g' = output_format g) ∧
     (output_format g = FORMAT_UNKNOWN → r.1 = true →
        output_format g'
        = default FORMAT_TEXT (head (omap requested_format args)))).
Proof.
  split; [|split].
  - intros g d. pose proof (set_out_format_spec X g d) as H.
    destruct (_set_out_format X g d) as [g' r]. destruct H as [Hok Hrej].
    split; [|split].
    + intros Hunk. destruct (Hok (or_intror Hunk)) as [-> ->]. reflexivity.
    + intros Hsame. destruct (Hok (or_introl Hsame)) as [-> ->].
      destruct g. simpl in *. now subst.
    + intros Hset Hne. destruct (Hrej Hne Hset) as (-> & Hrejected & _).
      split; [reflexivity | exact Hrejected].
  - intros g. unfold _set_def_output_opts. split; [reflexivity|]. split.
    + intros Hunk. destruct (delim g); simpl;
        now rewrite bool_decide_eq_true_2.
    + intros Hset. destruct (delim g); simpl;
        now rewrite bool_decide_eq_false_2.
  - intros args. apply parse_options_format.
Qed.

Lemma output_format_write_once_witness :
  _set_out_format Sample.ext initial_globals FORMAT_JSON
  = (set_output_format initial_globals FORMAT_JSON, CB_TRUE) ∧
  _set_out_format Sample.ext Sample.globals_xml FORMAT_XML
  = (Sample.globals_xml, CB_TRUE) ∧
  (_set_out_format Sample.ext Sample.globals_xml FORMAT_TEXT).1
  = Sample.globals_xml ∧
  rejected (_set_out_format Sample.ext Sample.globals_xml FORMAT_TEXT).2.
Proof.
  split; [|split].
  - apply (output_format_write_once Sample.ext). reflexivity.
  - apply (output_format_write_once Sample.ext). reflexivity.
  - apply (output_format_write_once Sample.ext); discriminate.
Defined.

(** Three command lines, run: the same format asked for twice; a second,
    different format; no format option at all. *)
Example parse_options_runs :
  (∃ g', parse_options Sample.ext initial_globals
           [OPT_format "xml"; OPT_xml "--xml"]
         = ([Warning "Option '--xml' is deprecated. Use '-f xml' in future."],
            Returns (g', CB_TRUE)) ∧
         output_format g' = FORMAT_XML) ∧
  (∃ g', parse_options Sample.ext initial_globals
           [OPT_format "json"; OPT_no_heading; OPT_format "xml"]
         = ([], Returns
                  (g', CB_FALSE G_OPTION_ERROR G_OPTION_ERROR_FAILED
                         ("Output was already set in JSON format, but later "
                          +:+ "argument attempts to change to TSV format"))) ∧
         output_format g' = FORMAT_JSON) ∧
  (∃ g', parse_options Sample.ext initial_globals [] = ([], Returns (g', CB_TRUE)) ∧
         output_format g' = FORMAT_TEXT ∧ g' = Sample.globals_text).
Proof.
  repeat split; eexists; (split; [vm_compute; reflexivity|]);
    repeat split; reflexivity.
Qed.

(** ** The per-item guess and the unknown answer *)

(** C5.  For per-item metadata the guess is read off the version tag: the
    Vista tag gives "Windows Vista - 8.1", the Windows 10 tag gives
    "Windows 10 or above", every other tag gives the unknown answer; the
    guess never stops the program.  Where the preamble shows a guess, the
    unknown answer shows as the text "OS detection failed": the preamble
    returns, having written to standard output only, and a dump in the
    text format that needs no output file reports success. *)
Theorem guess_per_item (C : header_consts) (X : externals) (g : globals)
    (meta : metarecord) :
  case_labels_distinct C →
  type meta = RECYCLE_BIN_TYPE_DIR →
  (version meta = VERSION_VISTA C →
     _guess_windows_ver C meta = Returns OS_GUESS_VISTA) ∧
  (version meta = VERSION_WIN10 C →
     _guess_windows_ver C meta = Returns OS_GUESS_10) ∧
  (version meta ≠ VERSION_VISTA C → version meta ≠ VERSION_WIN10 C →
     _guess_windows_ver C meta = Returns OS_GUESS_UNKNOWN ∧
     ((G_OS_WIN32 X || __linux__ X) && live_mode g = false →
        _print_text_header_os C X g meta
        = ([Stdout "OS detection failed"], Returns tt) ∧
        result (_print_text_header C X g meta) = Returns tt ∧
        Forall is_stdout (events (_print_text_header C X g meta)) ∧
        Stdout "OS detection failed" ∈ events (_print_text_header C X g meta) ∧
        (output_format g = FORMAT_TEXT → output_loc g = None →
           ∃ meta', result (dump_content C X g meta)
                    = Returns (meta', (true, None))))).
Proof.
  intros [Hvw _] Hty. rewrite (guess_dir C meta Hty).
  split; [|split].
  - intros ->. now rewrite Z.eqb_refl.
  - intros Hv. rewrite Hv.
    rewrite (proj2 (Z.eqb_neq _ _)) by congruence.
    now rewrite Z.eqb_refl.
  - intros Hnv Hnw. apply Z.eqb_neq in Hnv, Hnw. rewrite Hnv, Hnw.
    split; [reflexivity|]. intros Hlive.
    assert (Hguess : _guess_windows_ver C meta = Returns OS_GUESS_UNKNOWN).
    { rewrite (guess_dir C meta Hty). now rewrite Hnv, Hnw. }
    pose proof (print_text_header_os_guess C X g meta _ Hlive Hguess) as Hos.
    simpl in Hos.
    destruct (print_text_header_prints C X g meta _ Hos) as (Hres & Hout & Hin).
    repeat split; try assumption.
    intros Hfmt Hloc.
    destruct (dump_content_returns C X g meta) as (meta' & r & Hdump).
    { right. right. split; [assumption | now right]. }
    exists meta'. rewrite Hdump. do 2 f_equal.
    revert Hdump. unfold dump_content. rewrite Hloc.
    intros Hdump.
    apply bind_returns in Hdump as ([[hd rf] ft] & _ & Hdump).
    apply bind_returns in Hdump as (? & _ & Hdump).
    apply bind_returns in Hdump as (? & _ & Hdump).
    apply bind_returns in Hdump as (? & _ & Hdump).
    simpl in Hdump. now injection Hdump as _ <-.
Qed.

Lemma guess_per_item_witness :
  (version Sample.dir_other = VERSION_VISTA Sample.consts →
     _guess_windows_ver Sample.consts Sample.dir_other = Returns OS_GUESS_VISTA) ∧
  (version Sample.dir_other = VERSION_WIN10 Sample.consts →
     _guess_windows_ver Sample.consts Sample.dir_other = Returns OS_GUESS_10) ∧
  (version Sample.dir_other ≠ VERSION_VISTA Sample.consts →
   version Sample.dir_other ≠ VERSION_WIN10 Sample.consts →
     _guess_windows_ver Sample.consts Sample.dir_other
     = Returns OS_GUESS_UNKNOWN ∧
     ((G_OS_WIN32 Sample.ext || __linux__ Sample.ext)
      && live_mode Sample.globals_text = false →
        _print_text_header_os Sample.consts Sample.ext Sample.globals_text
          Sample.dir_other
        = ([Stdout "OS detection failed"], Returns tt) ∧
        result (_print_text_header Sample.consts Sample.ext
                  Sample.globals_text Sample.dir_other) = Returns tt ∧
        Forall is_stdout
          (events (_print_text_header Sample.consts Sample.ext
                     Sample.globals_text Sample.dir_other)) ∧
        Stdout "OS detection failed"
        ∈ events (_print_text_header Sample.consts Sample.ext
                    Sample.globals_text Sample.dir_other) ∧
        (output_format Sample.globals_text = FORMAT_TEXT →
         output_loc Sample.globals_text = None →
           ∃ meta', result (dump_content Sample.consts Sample.ext
                              Sample.globals_text Sample.dir_other)
                    = Returns (meta', (true, None))))).
Proof.
  apply (guess_per_item Sample.consts Sample.ext Sample.globals_text
           Sample.dir_other); [distinct_labels | reflexivity].
Defined.

(** The two folders of the setting: the guess, and the whole text dump of
    the one with the unknown tag. *)
Example guess_per_item_runs :
  _guess_windows_ver Sample.consts Sample.dir_win10 = Returns OS_GUESS_10 ∧
  _guess_windows_ver Sample.consts Sample.dir_other = Returns OS_GUESS_UNKNOWN ∧
  dump_content Sample.consts Sample.ext Sample.globals_text Sample.dir_other
  = ([Stdout ("Recycle bin path: '$Recycle.Bin'" +:+ LF);
      Stdout ("Version: 3" +:+ LF);
      Stdout "OS detection failed";
      Stdout LF;
      Stdout "Time zone: 0 [0]";
      Stdout LF;
      Stdout LF;
      Stdout ("Index" +:+ TAB +:+ "Deleted Time" +:+ TAB +:+ "Gone?" +:+ TAB
              +:+ "Size" +:+ TAB +:+ "Path" +:+ LF)],
     Returns (Sample.dir_other, (true, None))).
Proof. repeat split; vm_compute; reflexivity. Qed.

(** ** The table of names *)

(** [os_strings] has a name for every guess but the unknown one, as the
    warning at the enumeration demands. *)
Lemma os_strings_defined (guess : _os_guess) :
  guess ≠ OS_GUESS_UNKNOWN →
  is_Some (os_strings !! Z.to_nat (os_guess_value guess)).
Proof. destruct guess; [done|..]; intros _; by eexists. Qed.

(** ** Runs of the general lemmas *)

Lemma clean_exit_code_witness :
  result (rifiuti_cleanup Sample.consts Sample.info2_280 (Some None))
  = Returns EXIT_OK.
Proof.
  apply (clean_exit_code Sample.consts Sample.info2_280);
    [repeat constructor | reflexivity].
Defined.

Lemma dump_content_returns_witness :
  ∃ meta' r,
    result (dump_content Sample.consts Sample.ext Sample.globals_xml
              Sample.info2_800)
    = Returns (meta', r).
Proof.
  apply (dump_content_returns Sample.consts Sample.ext Sample.globals_xml
           Sample.info2_800).
  left. reflexivity.
Defined.

Lemma dump_content_conv_requests_witness :
  conv_requests (events (dump_content Sample.consts Sample.ext
                           Sample.globals_xml Sample.info2_800))
  = map (λ record,
           (if legacy_encoding Sample.globals_xml is Some _
            then raw_legacy_path record else raw_uni_path record,
            legacy_encoding Sample.globals_xml,
            output_format Sample.globals_xml))
      (records Sample.info2_800).
Proof.
  apply (dump_content_conv_requests Sample.consts Sample.ext
           Sample.globals_xml Sample.info2_800);
    [left; reflexivity | reflexivity].
Defined.

(** * Further properties *)

(** ** Option callbacks and the command line *)

Lemma set_out_format_result (X : externals) (g : globals) (d : out_fmt) :
  option_callback_result (_set_out_format X g d).2.
Proof.
  unfold _set_out_format, option_callback_result.
  repeat case_bool_decide; simpl; [by left .. | right; by eauto].
Qed.

(** [_set_out_format] writes no global but [output_format]. *)
Lemma set_out_format_frame (X : externals) (g : globals) (d : out_fmt) :
  (_set_out_format X g d).1 = g ∨
  (_set_out_format X g d).1 = set_output_format g d.
Proof.
  unfold _set_out_format. repeat case_bool_decide; simpl; auto.
Qed.

Lemma run_callback_result (X : externals) (g g' : globals) (o : option_arg)
    (r : cb_result) :
  result (run_callback X g o) = Returns (g', r) → option_callback_result r.
Proof.
  assert (Hfmt : ∀ g0 d gg rr,
            _set_out_format X g0 d = (gg, rr) → option_callback_result rr).
  { intros g0 d gg rr E. pose proof (set_out_format_result X g0 d) as H.
    now rewrite E in H. }
  destruct o as [value | value | | opt_name | value | enc]; simpl.
  - unfold _set_output_path, option_callback_result.
    repeat case_match; intros [= <- <-]; by eauto.
  - unfold _set_opt_delim. destruct (seen_delim g).
    + intros [= <- <-]. right. by eauto.
    + intros [= E]. eapply Hfmt, E.
  - unfold _set_opt_noheading. intros [= E]. eapply Hfmt, E.
  - unfold _option_deprecated, g_warning.
    destruct (_ || _); [rewrite bind_emit; simpl|].
    + intros [= E]. eapply Hfmt, E.
    + intros [= <- <-]. by left.
  - unfold _set_opt_format.
    repeat case_bool_decide; try (intros [= E]; eapply Hfmt, E).
    intros [= <- <-]. right. by eauto.
  - unfold _check_legacy_encoding, option_callback_result.
    repeat case_match; simpl; intros [= <- <-]; by eauto.
Qed.

Lemma parse_options_result (X : externals) (args : list option_arg) :
  ∀ g g' r,
    result (parse_options X g args) = Returns (g', r) →
    option_callback_result r.
Proof.
  induction args as [|o rest IH]; intros g g' r.
  - simpl. intros [= <- <-]. by left.
  - cbn [parse_options]. intros H.
    apply bind_returns in H as ([g1 r1] & Hcb & H).
    destruct (r1.1) eqn:Hr1.
    + eapply IH, H.
    + simpl in H. injection H as <- <-.
      eapply run_callback_result, Hcb.
Qed.

(** X4.  However a command line is rejected, the error is an option error
    and the exit code it leads to is the argument-error code; and parsing
    reports failure exactly when it hands back an error. *)
Theorem parse_options_exit_code (C : header_consts) (X : externals)
    (args : list option_arg) (g g' : globals) (r : cb_result) :
  result (parse_options X g args) = Returns (g', r) →
  (r.1 = true ↔ r.2 = None) ∧
  (r.1 = false →
   ∃ e, r.2 = Some e ∧ domain e = G_OPTION_ERROR ∧
        result (_get_exit_code C r.2) = Returns EXIT_ERR_ARG).
Proof.
  intros H. apply parse_options_result in H as [-> | (c & msg & ->)]; simpl.
  - split; [done | discriminate].
  - split; [split; discriminate|]. intros _. eexists. repeat split.
Qed.

Lemma parse_options_exit_code_witness :
  ∃ g' r,
    result (parse_options Sample.ext initial_globals
              [OPT_format "xml"; OPT_delimiter ","])
    = Returns (g', r) ∧
    (r.1 = true ↔ r.2 = None) ∧
    (r.1 = false →
     ∃ e, r.2 = Some e ∧ domain e = G_OPTION_ERROR ∧
          result (_get_exit_code Sample.consts r.2) = Returns EXIT_ERR_ARG).
Proof.
  eexists _, _. split; [vm_compute; reflexivity|].
  eapply (parse_options_exit_code Sample.consts Sample.ext
            [OPT_format "xml"; OPT_delimiter ","] initial_globals).
  vm_compute. reflexivity.
Defined.

(** X5.  After a successful parse the globals are ready for output: a
    format is stored and a delimiter is set, so the [switch] of
    [dump_content] finds its printers; in the XML and JSON formats, and in
    the text format without heading, the dump then always comes back. *)
Theorem parse_options_ready (C : header_consts) (X : externals)
    (args : list option_arg) (g g' : globals) (r : cb_result) :
  result (parse_options X g args) = Returns (g', r) →
  r.1 = true →
  output_format g' ≠ FORMAT_UNKNOWN ∧
  is_Some (delim g') ∧
  (∃ printers, result (select_printers C X g') = Returns printers) ∧
  (output_format g' ≠ FORMAT_TEXT ∨ no_heading g' = true →
   ∀ meta, ∃ meta' r',
     result (dump_content C X g' meta) = Returns (meta', r')).
Proof.
  revert g. induction args as [|o rest IH]; intros g.
  - simpl. intros [= <- _] _. unfold _set_def_output_opts.
    assert (Hfmt : output_format
              (let g0 := if delim g is None then set_delim g (Some TAB) else g in
               if bool_decide (output_format g0 = FORMAT_UNKNOWN)
               then set_output_format g0 FORMAT_TEXT else g0)
              ≠ FORMAT_UNKNOWN).
    { simpl. case_bool_decide; simpl; [discriminate | assumption]. }
    simpl in *. split; [exact Hfmt|]. split.
    { destruct (delim g) eqn:Hd; case_bool_decide; simpl;
        rewrite ?Hd; by eexists. }
    split.
    { unfold select_printers.
      destruct (output_format _); [done | by eexists ..]. }
    intros Hcase meta. apply dump_content_returns.
    destruct (output_format _) eqn:E; [done | | by auto | by auto].
    right. right. split; [reflexivity|]. left.
    destruct Hcase as [Hne | Hnh]; [done | exact Hnh].
  - cbn [parse_options]. intros H Hr.
    apply bind_returns in H as ([g1 r1] & _ & H).
    destruct (r1.1) eqn:Hr1.
    + eapply IH; eassumption.
    + simpl in H. injection H as <- <-. congruence.
Qed.

Lemma parse_options_ready_witness :
  ∃ g' r,
    result (parse_options Sample.ext initial_globals
              [OPT_legacy_filename "ISO-8859-1"; OPT_format "json"])
    = Returns (g', r) ∧
    output_format g' ≠ FORMAT_UNKNOWN ∧
    is_Some (delim g') ∧
    (∃ printers,
       result (select_printers Sample.consts Sample.ext g') = Returns printers) ∧
    (output_format g' ≠ FORMAT_TEXT ∨ no_heading g' = true →
     ∀ meta, ∃ meta' r',
       result (dump_content Sample.consts Sample.ext g' meta)
       = Returns (meta', r')).
Proof.
  eexists _, _. split; [vm_compute; reflexivity|].
  apply (parse_options_ready Sample.consts Sample.ext
           [OPT_legacy_filename "ISO-8859-1"; OPT_format "json"]
           initial_globals _ CB_TRUE);
    [vm_compute; reflexivity | reflexivity].
Defined.

(** X6.  After a successful parse the stored format is the format of every
    option that asked for one: [-n] and [-t] only ever go with text, [-x]
    only with XML, and two options that ask for different formats are
    never both accepted. *)
Theorem parse_options_agree (X : externals) (args : list option_arg)
    (g g' : globals) (r : cb_result) (o : option_arg) (d : out_fmt) :
  result (parse_options X g args) = Returns (g', r) →
  r.1 = true →
  o ∈ args →
  requested_format o = Some d →
  output_format g' = d.
Proof.
  revert g. induction args as [|o1 rest IH]; intros g H Hr Hin Hreq.
  - by apply elem_of_nil in Hin.
  - cbn [parse_options] in H.
    apply bind_returns in H as ([g1 r1] & Hcb & H).
    destruct (r1.1) eqn:Hr1;
      [|simpl in H; injection H as <- <-; congruence].
    apply elem_of_cons in Hin as [-> | Hin].
    + apply run_callback_format in Hcb as [_ Hstored].
      specialize (Hstored Hr1). rewrite Hreq in Hstored. simpl in Hstored.
      apply parse_options_format in H as [Hkeep _].
      rewrite Hkeep; [assumption|]. rewrite Hstored.
      eapply requested_format_known, Hreq.
    + eapply IH; eassumption.
Qed.

Lemma parse_options_agree_witness :
  ∃ g',
    result (parse_options Sample.ext initial_globals
              [OPT_output "out.tsv"; OPT_delimiter ","; OPT_no_heading])
    = Returns (g', CB_TRUE) ∧
    output_format g' = FORMAT_TEXT.
Proof.
  eexists. split; [vm_compute; reflexivity|].
  apply (parse_options_agree Sample.ext
           [OPT_output "out.tsv"; OPT_delimiter ","; OPT_no_heading]
           initial_globals _ CB_TRUE OPT_no_heading FORMAT_TEXT);
    [vm_compute; reflexivity | reflexivity | | reflexivity].
  do 2 right. left.
Defined.

(** Concludes about the globals a callback that ends in
    [_set_out_format] leaves: they are those it passed on, but for the
    format. *)
Ltac by_set_out_format_frame :=
  let E := fresh "E" in
  let Hf := fresh "Hf" in
  intros [= E];
  match type of E with
  | _set_out_format ?X ?G ?D = _ =>
      destruct (set_out_format_frame X G D) as [Hf | Hf];
      rewrite E in Hf; simpl in Hf; subst; simpl; auto
  end.

Lemma run_callback_output_loc (X : externals) (g g' : globals)
    (o : option_arg) (r : cb_result) :
  result (run_callback X g o) = Returns (g', r) →
  output_loc g' = output_loc g ∨
  (∃ v, o = OPT_output v ∧ output_loc g' = Some v ∧ v ≠ "" ∧
        g_file_test_exists X v = false).
Proof.
  destruct o as [value | value | | opt_name | value | enc]; simpl.
  - unfold _set_output_path.
    destruct (seen_output g); [intros [= <- <-]; by left|].
    case_bool_decide as Hv; [intros [= <- <-]; by left|].
    destruct (g_file_test_exists X value) eqn:Hex;
      intros [= <- <-]; [by left|].
    right. exists value. by repeat split.
  - unfold _set_opt_delim. destruct (seen_delim g).
    + intros [= <- <-]. by left.
    + by_set_out_format_frame.
  - unfold _set_opt_noheading. by_set_out_format_frame.
  - unfold _option_deprecated, g_warning.
    destruct (_ || _); [rewrite bind_emit; simpl|].
    + by_set_out_format_frame.
    + intros [= <- <-]. by left.
  - unfold _set_opt_format.
    repeat case_bool_decide; try by_set_out_format_frame.
    intros [= <- <-]. by left.
  - unfold _check_legacy_encoding.
    repeat case_match; simpl; intros [= <- <-]; by left.
Qed.

(** X7.  The output location a command line leaves stored was either
    stored before or named by an [-o] option of that command line; in the
    latter case it is not empty and no file of that name existed when the
    option was read.  The program never takes an existing file as its
    output file. *)
Theorem output_path_is_fresh (X : externals) (args : list option_arg)
    (g g' : globals) (r : cb_result) (v : string) :
  result (parse_options X g args) = Returns (g', r) →
  output_loc g' = Some v →
  output_loc g = Some v ∨
  (OPT_output v ∈ args ∧ v ≠ "" ∧ g_file_test_exists X v = false).
Proof.
  revert g. induction args as [|o rest IH]; intros g H Hloc.
  - simpl in H. injection H as <- _. left. revert Hloc.
    unfold _set_def_output_opts. simpl.
    destruct (delim g); case_bool_decide; simpl; auto.
  - cbn [parse_options] in H.
    apply bind_returns in H as ([g1 r1] & Hcb & H).
    assert (Hstep : output_loc g1 = Some v →
              output_loc g = Some v ∨
              (OPT_output v ∈ o :: rest ∧ v ≠ "" ∧
               g_file_test_exists X v = false)).
    { intros H1. apply run_callback_output_loc in Hcb
        as [Hsame | (w & -> & Hw & Hne & Hex)].
      - left. congruence.
      - right. assert (w = v) as -> by congruence.
        split; [left | by split]. }
    destruct (r1.1).
    + destruct (IH g1 H Hloc) as [H1 | (Hin & Hne & Hex)];
        [by apply Hstep|].
      right. split; [by right | by split].
    + simpl in H. injection H as <- <-. by apply Hstep.
Qed.

Lemma output_path_is_fresh_witness :
  ∃ g',
    result (parse_options Sample.ext initial_globals
              [OPT_format "xml"; OPT_output "out.xml"])
    = Returns (g', CB_TRUE) ∧
    output_loc g' = Some "out.xml" ∧
    (output_loc initial_globals = Some "out.xml" ∨
     (OPT_output "out.xml" ∈ [OPT_format "xml"; OPT_output "out.xml"] ∧
      "out.xml" ≠ "" ∧ g_file_test_exists Sample.ext "out.xml" = false)).
Proof.
  eexists. split; [vm_compute; reflexivity|]. split; [reflexivity|].
  eapply (output_path_is_fresh Sample.ext
            [OPT_format "xml"; OPT_output "out.xml"] initial_globals);
    [vm_compute; reflexivity | reflexivity].
Defined.

(** An accepted callback sets the [seen] flag of its own option, which
    was not set before, and leaves the other flags alone. *)
Lemma run_callback_seen (X : externals) (g g' : globals) (o : option_arg)
    (r : cb_result) :
  result (run_callback X g o) = Returns (g', r) →
  r.1 = true →
  (seen_output g' = seen_output g || is_output_option o ∧
   (is_output_option o = true → seen_output g = false)) ∧
  (seen_delim g' = seen_delim g || is_delimiter_option o ∧
   (is_delimiter_option o = true → seen_delim g = false)) ∧
  (seen_encoding g' = seen_encoding g || is_encoding_option o ∧
   (is_encoding_option o = true → seen_encoding g = false)).
Proof.
  destruct o as [value | value | | opt_name | value | enc]; simpl.
  - unfold _set_output_path. destruct (seen_output g) eqn:Hs;
      repeat case_match; intros [= <- <-]; simpl; try discriminate.
    intros _. rewrite ?orb_false_r. by repeat split.
  - unfold _set_opt_delim. destruct (seen_delim g) eqn:Hs.
    + intros [= <- <-]. discriminate.
    + intros [= E] _.
      destruct (set_out_format_frame X
                  (set_delim (set_seen_delim g true)
                     (Some (if bool_decide (value = "") then ""
                            else filter_escapes X value))) FORMAT_TEXT)
        as [Hf | Hf]; rewrite E in Hf; simpl in Hf; subst; simpl;
        rewrite ?orb_false_r; by repeat split.
  - unfold _set_opt_noheading. intros [= E] _.
    destruct (set_out_format_frame X (set_no_heading g true) FORMAT_TEXT)
      as [Hf | Hf]; rewrite E in Hf; simpl in Hf; subst; simpl;
      rewrite ?orb_false_r; by repeat split.
  - unfold _option_deprecated, g_warning.
    destruct (_ || _); [rewrite bind_emit; simpl|].
    + intros [= E] _.
      destruct (set_out_format_frame X g FORMAT_XML)
        as [Hf | Hf]; rewrite E in Hf; simpl in Hf; subst; simpl;
        rewrite ?orb_false_r; by repeat split.
    + intros [= <- <-] _. rewrite ?orb_false_r. by repeat split.
  - unfold _set_opt_format.
    repeat case_bool_decide;
      try (intros [= E] _;
           match type of E with
           | _set_out_format ?X ?G ?D = _ =>
               destruct (set_out_format_frame X G D) as [Hf | Hf];
               rewrite E in Hf; simpl in Hf; subst; simpl;
               rewrite ?orb_false_r; by repeat split
           end).
    intros [= <- <-]. discriminate.
  - unfold _check_legacy_encoding. destruct (seen_encoding g) eqn:Hs.
    + intros [= <- <-]. discriminate.
    + repeat case_match; simpl; intros [= <- <-]; simpl; try discriminate.
      intros _. rewrite ?orb_false_r. by repeat split.
Qed.

(** X8.  A command line that is accepted holds at most one [-o], at most
    one [-t] and at most one [-l] option, and none of a kind whose option
    was seen before: a repeated option of these kinds is always
    rejected. *)
Theorem no_duplicate_options (X : externals) (args : list option_arg)
    (g g' : globals) (r : cb_result) :
  result (parse_options X g args) = Returns (g', r) →
  r.1 = true →
  (count_options is_output_option args
   + (if seen_output g then 1 else 0) ≤ 1)%nat ∧
  (count_options is_delimiter_option args
   + (if seen_delim g then 1 else 0) ≤ 1)%nat ∧
  (count_options is_encoding_option args
   + (if seen_encoding g then 1 else 0) ≤ 1)%nat.
Proof.
  revert g. induction args as [|o rest IH]; intros g H Hr.
  - unfold count_options. simpl. repeat split; case_match; lia.
  - cbn [parse_options] in H.
    apply bind_returns in H as ([g1 r1] & Hcb & H).
    destruct (r1.1) eqn:Hr1;
      [|simpl in H; injection H as <- <-; congruence].
    destruct (run_callback_seen X g g1 o r1 Hcb Hr1)
      as ((Ho1 & Ho2) & (Hd1 & Hd2) & (He1 & He2)).
    destruct (IH g1 H Hr) as (IHo & IHd & IHe).
    rewrite Ho1 in IHo. rewrite Hd1 in IHd. rewrite He1 in IHe.
    unfold count_options in *. cbn [List.filter].
    repeat split.
    + destruct (is_output_option o); simpl in *;
        [rewrite (Ho2 eq_refl) in IHo |- *; simpl in *; lia|].
      rewrite orb_false_r in IHo. exact IHo.
    + destruct (is_delimiter_option o); simpl in *;
        [rewrite (Hd2 eq_refl) in IHd |- *; simpl in *; lia|].
      rewrite orb_false_r in IHd. exact IHd.
    + destruct (is_encoding_option o); simpl in *;
        [rewrite (He2 eq_refl) in IHe |- *; simpl in *; lia|].
      rewrite orb_false_r in IHe. exact IHe.
Qed.

Lemma no_duplicate_options_witness :
  ∃ g',
    result (parse_options Sample.ext initial_globals
              [OPT_output "out.tsv"; OPT_delimiter ","; OPT_no_heading;
               OPT_legacy_filename "ASCII"])
    = Returns (g', CB_TRUE) ∧
    (count_options is_output_option
       [OPT_output "out.tsv"; OPT_delimiter ","; OPT_no_heading;
        OPT_legacy_filename "ASCII"]
     + (if seen_output initial_globals then 1 else 0) ≤ 1)%nat ∧
    (count_options is_delimiter_option
       [OPT_output "out.tsv"; OPT_delimiter ","; OPT_no_heading;
        OPT_legacy_filename "ASCII"]
     + (if seen_delim initial_globals then 1 else 0) ≤ 1)%nat ∧
    (count_options is_encoding_option
       [OPT_output "out.tsv"; OPT_delimiter ","; OPT_no_heading;
        OPT_legacy_filename "ASCII"]
     + (if seen_encoding initial_globals then 1 else 0) ≤ 1)%nat.
Proof.
  eexists. split; [vm_compute; reflexivity|].
  eapply (no_duplicate_options Sample.ext
            [OPT_output "out.tsv"; OPT_delimiter ","; OPT_no_heading;
             OPT_legacy_filename "ASCII"] initial_globals _ CB_TRUE);
    [vm_compute; reflexivity | reflexivity].
Defined.

(** ** Reporting record errors *)

Lemma dump_invalid_records_events (l : list (string * GError)) :
  events (dump_invalid_records l)
  = map (λ kv, Stderr (record_id_text kv.1 +:+ ": " +:+ message kv.2 +:+ LF)) l.
Proof.
  induction l as [|[key val] l IH]; [reflexivity|].
  cbn [dump_invalid_records map]. unfold g_printerr.
  rewrite bind_emit. cbn. now rewrite IH.
Qed.

Lemma dump_rec_error_events (record : rbin_struct) (flag : bool) :
  events (_dump_rec_error record flag)
  = match error record with
    | None => []
    | Some e =>
        (if flag then []
         else [Stderr (LF +:+ "Error occurred in following record:" +:+ LF)])
        ++ [Stderr (record_label record +:+ ": " +:+ message e +:+ LF)]
    end.
Proof.
  unfold _dump_rec_error, record_label, g_printerr, emit, bind, ret.
  destruct (error record) as [e|]; [|reflexivity].
  destruct flag, (negb (index_n record =? 0)); reflexivity.
Qed.

Lemma dump_rec_errors_events (l : list rbin_struct) (flag : bool) :
  Forall is_stderr (events (dump_rec_errors l flag)) ∧
  length (events (dump_rec_errors l flag))
  = (length (List.filter has_error l)
     + (if flag || Nat.eqb (length (List.filter has_error l)) 0
        then 0 else 1))%nat ∧
  (∀ record e, record ∈ l → error record = Some e →
     Stderr (record_label record +:+ ": " +:+ message e +:+ LF)
     ∈ events (dump_rec_errors l flag)).
Proof.
  revert flag. induction l as [|record l IH]; intros flag.
  - simpl. split; [constructor|]. split; [now rewrite orb_true_r|].
    intros ? ? Hin. by apply elem_of_nil in Hin.
  - cbn [dump_rec_errors].
    rewrite (bind_events _ _ _ (dump_rec_error_result record flag)).
    rewrite dump_rec_error_events.
    destruct (IH (flag || has_error record)) as (IHs & IHl & IHm).
    cbn [List.filter]. unfold has_error in *.
    destruct (error record) as [e0|] eqn:Herr.
    + rewrite orb_true_r in *. simpl in IHl.
      split; [|split].
      * apply Forall_app. split; [|assumption].
        destruct flag; repeat constructor; by eexists.
      * rewrite !length_app, IHl. destruct flag; simpl; lia.
      * intros rec e Hin He. apply elem_of_app.
        apply elem_of_cons in Hin as [-> | Hin]; [|right; by eapply IHm].
        left. rewrite Herr in He. injection He as ->.
        apply elem_of_app. right. by left.
    + rewrite orb_false_r in *. simpl.
      split; [assumption|]. split; [exact IHl|].
      intros rec e Hin He.
      apply elem_of_cons in Hin as [-> | Hin]; [congruence | by eapply IHm].
Qed.

(** X9.  [_has_record_error] writes to standard error only, and reports
    every problem exactly once under a single headline: one line per
    unreadable entry, one line per record that carries an error, one
    headline before them, and nothing at all when there is no problem.
    The line of a record names the record by its label and gives the
    message of its error; the line of an unreadable entry does the same
    for the entry's key. *)
Theorem record_errors_reported (meta : metarecord) :
  Forall is_stderr (events (_has_record_error meta)) ∧
  length (events (_has_record_error meta))
  = (let problems := (size (invalid_records meta)
                      + length (List.filter has_error (records meta)))%nat in
     if Nat.eqb problems 0 then 0%nat else S problems) ∧
  (∀ record e, record ∈ records meta → error record = Some e →
     Stderr (record_label record +:+ ": " +:+ message e +:+ LF)
     ∈ events (_has_record_error meta)) ∧
  (∀ key val, invalid_records meta !! key = Some val →
     Stderr (record_id_text key +:+ ": " +:+ message val +:+ LF)
     ∈ events (_has_record_error meta)).
Proof.
  unfold _has_record_error.
  destruct (Nat.eqb (size (invalid_records meta)) 0) eqn:Hsize; simpl negb;
    cbv iota.
  - (* no unreadable entry *)
    rewrite (bind_events (ret false) _ false) by reflexivity. simpl app.
    destruct (dump_rec_errors_events (records meta) false) as (Hs & Hl & Hm).
    apply Nat.eqb_eq in Hsize. rewrite Hsize. simpl.
    split; [assumption|]. split.
    + rewrite Hl. destruct (length (List.filter has_error (records meta)));
        simpl; lia.
    + split; [assumption|].
      intros key val Hlook. apply map_size_empty_iff in Hsize.
      rewrite Hsize in Hlook. by rewrite lookup_empty in Hlook.
  - assert (Hhead : result
              (g_printerr ("Error occurred in following record:" +:+ LF) >>
               dump_invalid_records (map_to_list (invalid_records meta)) >>
               ret true) = Returns true).
    { unfold g_printerr. rewrite bind_emit. simpl.
      erewrite bind_result; [reflexivity | apply dump_invalid_records_result]. }
    rewrite (bind_events _ _ _ Hhead).
    unfold g_printerr. rewrite bind_emit. cbn [events fst].
    rewrite (bind_events _ _ _ (dump_invalid_records_result _)).
    rewrite dump_invalid_records_events. simpl (events (ret true)).
    rewrite app_nil_r.
    destruct (dump_rec_errors_events (records meta) true) as (Hs & Hl & Hm).
    apply Nat.eqb_neq in Hsize.
    split; [|split; [|split]].
    + constructor; [by eexists|]. apply Forall_app. split; [|assumption].
      apply Forall_forall. intros x Hx.
      apply list_elem_of_fmap in Hx as (kv & -> & _).
      by eexists.
    + rewrite length_app. cbn [length]. rewrite length_map, Hl.
      rewrite length_map_to_list. simpl.
      destruct (size (invalid_records meta)); [done|]. simpl. lia.
    + intros record e Hin He. right. apply elem_of_app. right.
      by eapply Hm.
    + intros key val Hlook. right. apply elem_of_app. left.
      apply list_elem_of_fmap. exists (key, val). split; [reflexivity|].
      by apply elem_of_map_to_list.
Qed.

(** ** Keys of unreadable entries *)

Lemma split_bar_no_bar (b : string) :
  has_bar b = false → split_bar b = [b].
Proof.
  induction b as [|c b IH]; [reflexivity|]. simpl.
  destruct (Ascii.eqb c "|"); [discriminate|]. simpl.
  intros Hb. now rewrite (IH Hb).
Qed.

Lemma split_bar_app (a rest : string) :
  has_bar a = false →
  split_bar (a +:+ String "|" rest) = a :: split_bar rest.
Proof.
  induction a as [|c a IH]; [reflexivity|]. simpl.
  destruct (Ascii.eqb c "|"); [discriminate|]. simpl.
  intros Ha. now rewrite (IH Ha).
Qed.

(** X10.  A key made of a bar, a first offset, a bar and a second offset
    is reported as the byte range between the two offsets; a key that
    does not start with a bar is reported as it is. *)
Theorem record_id_byte_range (a b : string) :
  has_bar a = false → has_bar b = false →
  record_id_text ("|" +:+ a +:+ "|" +:+ b)
  = "byte range " +:+ a +:+ " - " +:+ b ∧
  (∀ c rest, c ≠ "|"%char → record_id_text (String c rest) = String c rest).
Proof.
  intros Ha Hb. split.
  - change ("|" +:+ a +:+ "|" +:+ b) with (String "|" (a +:+ String "|" b)).
    unfold record_id_text.
    change (split_bar (String "|" (a +:+ String "|" b)))
      with (EmptyString :: split_bar (a +:+ String "|" b)).
    rewrite (split_bar_app a b Ha), (split_bar_no_bar b Hb).
    reflexivity.
  - intros c rest Hc. unfold record_id_text.
    destruct c as [[] [] [] [] [] [] [] []]; try reflexivity.
    now destruct Hc.
Qed.

Lemma record_id_byte_range_witness :
  record_id_text ("|" +:+ "20" +:+ "|" +:+ "819")
  = "byte range " +:+ "20" +:+ " - " +:+ "819" ∧
  (∀ c rest, c ≠ "|"%char → record_id_text (String c rest) = String c rest).
Proof.
  apply (record_id_byte_range "20" "819"); reflexivity.
Defined.

(** ** FILETIME: which ticks make which second *)

Lemma quot_seconds (t f : Z) :
  (0 ≤ t ∧ 0 ≤ f < 10000000) ∨ (t ≤ 0 ∧ -10000000 < f ≤ 0) →
  (t * 10000000 + f) ÷ 10000000 = t.
Proof.
  intros [[Ht Hf] | [Ht Hf]].
  - rewrite Z.quot_div_nonneg by lia.
    rewrite Z.div_add_l by lia. rewrite Z.div_small by lia. lia.
  - replace (t * 10000000 + f) with (- ((- t) * 10000000 + (- f))) by lia.
    rewrite Z.quot_opp_l by lia. rewrite Z.quot_div_nonneg by lia.
    rewrite Z.div_add_l by lia. rewrite Z.div_small by lia. lia.
Qed.

(** X11.  Every second GLib can represent is reached, and the division
    truncates towards 1970: second [t] after the epoch is made by the
    ten million ticks that start it, second [t] before the epoch by the
    ten million ticks that end it, so that second zero is made by the
    ticks of the two seconds around the epoch. *)
Theorem filetime_second_ticks (t f : Z) :
  GDATETIME_MIN_UNIX ≤ t ≤ GDATETIME_MAX_UNIX →
  (0 ≤ t ∧ 0 ≤ f < 10000000) ∨ (t ≤ 0 ∧ -10000000 < f ≤ 0) →
  win_filetime_to_gdatetime (FILETIME_UNIX_DIFF + t * 10000000 + f)
  = Some (mkGDateTime t TZ_UTC).
Proof.
  intros Ht Hf. unfold win_filetime_to_gdatetime.
  rewrite win_filetime_to_unix_exact.
  - replace (FILETIME_UNIX_DIFF + t * 10000000 + f - 116444736000000000)
      with (t * 10000000 + f) by (unfold FILETIME_UNIX_DIFF; lia).
    rewrite (quot_seconds t f Hf). now apply new_from_unix_utc_some.
  - unfold GDATETIME_MIN_UNIX, GDATETIME_MAX_UNIX, INT64_MIN, INT64_MAX,
      FILETIME_UNIX_DIFF in *. lia.
Qed.

Lemma filetime_second_ticks_witness :
  win_filetime_to_gdatetime (FILETIME_UNIX_DIFF + (-1) * 10000000 + (-9999999))
  = Some (mkGDateTime (-1) TZ_UTC).
Proof.
  apply (filetime_second_ticks (-1) (-9999999)).
  - unfold GDATETIME_MIN_UNIX, GDATETIME_MAX_UNIX. lia.
  - right. lia.
Defined.

(** ** When the dump stops in an assertion *)

Lemma guess_windows_ver_aborts (C : header_consts) (meta : metarecord) :
  _guess_windows_ver C meta = Aborts ↔
  type meta = RECYCLE_BIN_TYPE_FILE ∧
  version meta ∉ [VERSION_WIN95 C; VERSION_WIN98 C; VERSION_NT4 C;
                  VERSION_ME_03 C].
Proof.
  unfold _guess_windows_ver. rewrite !not_elem_of_cons.
  pose proof (not_elem_of_nil (version meta)) as Hnil.
  destruct (type meta); simpl.
  - destruct (Z.eqb_spec (version meta) (VERSION_WIN95 C));
      [intuition congruence|].
    destruct (Z.eqb_spec (version meta) (VERSION_WIN98 C));
      [intuition congruence|].
    destruct (Z.eqb_spec (version meta) (VERSION_NT4 C));
      [intuition congruence|].
    destruct (Z.eqb_spec (version meta) (VERSION_ME_03 C));
      [|intuition congruence].
    repeat case_match; intuition congruence.
  - repeat case_match; intuition congruence.
Qed.

Lemma print_text_header_result (C : header_consts) (X : externals)
    (g : globals) (meta : metarecord) :
  result (_print_text_header C X g meta)
  = if (G_OS_WIN32 X || __linux__ X) && live_mode g then Returns tt
    else match _guess_windows_ver C meta with
         | Returns _ => Returns tt
         | Aborts => Aborts
         end.
Proof.
  unfold _print_text_header, _print_text_header_os, lift, g_print, emit,
    bind, ret, result.
  destruct ((G_OS_WIN32 X || __linux__ X) && live_mode g);
    [|destruct (_guess_windows_ver C meta)];
    repeat case_match; simplify_eq; reflexivity.
Qed.

(** X12.  The one way for [dump_content] to stop in an assertion instead
    of returning: the temporary file, if one is wanted, was made, and
    either no output format is stored, or the text preamble is to be
    printed for an INFO2 file examined offline whose version is none of
    the four INFO2 versions.  XML and JSON output, and text output
    without heading, never stop there. *)
Theorem dump_content_aborts (C : header_consts) (X : externals) (g : globals)
    (meta : metarecord) :
  result (dump_content C X g meta) = Aborts ↔
  (if output_loc g is Some _ then get_tempfile X else None) = None ∧
  (output_format g = FORMAT_UNKNOWN ∨
   (output_format g = FORMAT_TEXT ∧ no_heading g = false ∧
    (G_OS_WIN32 X || __linux__ X) && live_mode g = false ∧
    type meta = RECYCLE_BIN_TYPE_FILE ∧
    version meta ∉ [VERSION_WIN95 C; VERSION_WIN98 C; VERSION_NT4 C;
                    VERSION_ME_03 C])).
Proof.
  rewrite <- guess_windows_ver_aborts.
  pose proof (dump_content_returns C X g meta) as Hret.
  pose proof (print_text_header_result C X g meta) as Hhd.
  split.
  - intros Hab.
    assert (Hno : ¬ ∃ meta' r,
              result (dump_content C X g meta) = Returns (meta', r)).
    { intros (meta' & r & E). congruence. }
    split.
    { unfold dump_content in Hab.
      by destruct (if output_loc g is Some _ then get_tempfile X else None). }
    destruct (output_format g) eqn:Hfmt; [by left | right | ..];
      [|destruct Hno; apply Hret; tauto ..].
    destruct (no_heading g) eqn:Hnh;
      [destruct Hno; apply Hret; tauto|].
    destruct ((G_OS_WIN32 X || __linux__ X) && live_mode g) eqn:Hlive;
      [destruct Hno; apply Hret; tauto|].
    destruct (_guess_windows_ver C meta) eqn:Hguess;
      [destruct Hno; apply Hret; tauto|].
    done.
  - intros [Htmp [Hfmt | (Hfmt & Hnh & Hlive & Hguess)]];
      unfold dump_content, select_printers; rewrite Htmp, Hfmt.
    + reflexivity.
    + rewrite Hnh. rewrite Hlive, Hguess in Hhd.
      unfold bind at 1, ret.
      unfold result in *.
      destruct (_print_text_header C X g meta) as [t r]. simpl in Hhd.
      subst r. reflexivity.
Qed.

(** ** File arguments *)

Section file_arguments.

Variable X : externals.
Variable F : file_system.

(** The loop over the directory entries keeps the entries whose name
    matches, in the order of the directory, each under the path. *)
Lemma add_index_files_eq (files : list string) (path : string)
    (entries : list string) :
  add_index_files F files path entries
  = files ++ map (g_build_filename F path)
               (List.filter is_index_file_name entries).
Proof.
  revert files. induction entries as [|direntry rest IH]; intros files.
  - simpl. now rewrite app_nil_r.
  - cbn [add_index_files List.filter].
    destruct (is_index_file_name direntry); simpl.
    + now rewrite IH, <- app_assoc.
    + apply IH.
Qed.

Lemma check_file_args_list (path : string) (files : list string)
    (type : rbin_type) (iso : option bool) :
  (_check_file_args X F path files type iso).1.1
  = files ++ (_check_file_args X F path [] type None).1.1.
Proof.
  unfold _check_file_args, _populate_index_file_list.
  repeat case_match; simplify_eq; simpl;
    rewrite ?add_index_files_eq, ?app_nil_r; reflexivity.
Qed.

Lemma check_bindirs_eq (bindirs : list string) (files : list string)
    (type : rbin_type) :
  check_bindirs X F bindirs files type
  = files ++ concat (map (λ bindir,
                            (_check_file_args X F bindir [] type None).1.1)
                       bindirs).
Proof.
  revert files. induction bindirs as [|bindir rest IH]; intros files.
  - simpl. now rewrite app_nil_r.
  - cbn [check_bindirs map concat].
    now rewrite IH, check_file_args_list, <- app_assoc.
Qed.

(** A failed check changes nothing and stores an error: one of its own
    three, of the file domain, or the error met on opening the
    directory. *)
Lemma check_file_args_failed (path : string) (files : list string)
    (type : rbin_type) (iso : option bool) :
  (_check_file_args X F path files type iso).2.1 = false →
  (_check_file_args X F path files type iso).1 = (files, iso) ∧
  ∃ e, (_check_file_args X F path files type iso).2.2 = Some e ∧
       (domain e = G_FILE_ERROR ∨
        (∃ p, g_dir_open F p = inl e) ∨
        (∃ p, can_list_win32_folder F p = Some e)).
Proof.
  unfold _check_file_args, _populate_index_file_list.
  repeat case_match; simplify_eq; simpl; try discriminate; intros _;
    (split; [|eexists; split; [reflexivity|]; by eauto]);
    try reflexivity.
  all: match goal with
       | H : (Nat.eqb (length ?l) 0 && _) = true |- _ =>
           apply andb_prop in H as [H _]; apply Nat.eqb_eq in H;
           apply nil_length_inv in H
       end.
  all: match goal with
       | H : add_index_files _ _ _ _ = [] |- _ =>
           rewrite H; rewrite add_index_files_eq in H;
           apply app_eq_nil in H as [-> _]
       end; reflexivity.
Qed.

End file_arguments.

(** X13.  A check of a file argument that fails stores an error and
    changes neither the list of index files nor the isolated-index flag;
    when the errors of opening a directory are of GLib's file domain, so
    is the stored error, and the exit code is that of a file that cannot
    be opened. *)
Theorem check_file_args_failure (C : header_consts) (X : externals)
    (F : file_system) (path : string) (files : list string)
    (type : rbin_type) (iso : option bool) :
  (∀ p e, g_dir_open F p = inl e → domain e = G_FILE_ERROR) →
  (∀ p e, can_list_win32_folder F p = Some e → domain e = G_FILE_ERROR) →
  (_check_file_args X F path files type iso).2.1 = false →
  (_check_file_args X F path files type iso).1 = (files, iso) ∧
  ∃ e, (_check_file_args X F path files type iso).2.2 = Some e ∧
       domain e = G_FILE_ERROR ∧
       result (_get_exit_code C (Some e)) = Returns EXIT_ERR_OPEN_FILE.
Proof.
  intros Hdir Hwin Hfail.
  destruct (check_file_args_failed X F path files type iso Hfail)
    as (Hsame & e & He & Hdom).
  split; [assumption|]. exists e. split; [assumption|].
  assert (Hd : domain e = G_FILE_ERROR).
  { destruct Hdom as [Hd | [[p Hp] | [p Hp]]]; [assumption|..].
    - by eapply Hdir.
    - by eapply Hwin. }
  split; [assumption|].
  unfold _get_exit_code. rewrite Hd. reflexivity.
Qed.

Lemma check_file_args_failure_witness :
  (_check_file_args SampleFS.disk_ext SampleFS.disk SampleFS.locked_bin
     [SampleFS.info2_file] RECYCLE_BIN_TYPE_DIR (Some true)).1
  = ([SampleFS.info2_file], Some true) ∧
  ∃ e, (_check_file_args SampleFS.disk_ext SampleFS.disk SampleFS.locked_bin
          [SampleFS.info2_file] RECYCLE_BIN_TYPE_DIR (Some true)).2.2 = Some e ∧
       domain e = G_FILE_ERROR ∧
       result (_get_exit_code Sample.consts (Some e))
       = Returns EXIT_ERR_OPEN_FILE.
Proof.
  apply (check_file_args_failure Sample.consts SampleFS.disk_ext
           SampleFS.disk SampleFS.locked_bin [SampleFS.info2_file]
           RECYCLE_BIN_TYPE_DIR (Some true)).
  - intros p e. simpl. unfold SampleFS.listing.
    repeat case_match; intros [= <-]; reflexivity.
  - intros p e. simpl. discriminate.
  - vm_compute. reflexivity.
Defined.

(** X14.  A check of a file argument that succeeds stores no error, and
    the path exists.  For a directory, when per-item folders are looked
    for, the directory could be listed, the list of index files grows by
    the entries whose name matches, in the order of the directory and
    each under the path, the isolated-index flag is not touched, and a
    list left empty means [desktop.ini] vouches for a recycle bin.
    Otherwise the path is a regular file, the list grows by the path
    alone, and the flag, if there is one and per-item folders are looked
    for, says whether the parent folder lacks such a [desktop.ini]. *)
Theorem check_file_args_success (X : externals) (F : file_system)
    (path : string) (files : list string) (type : rbin_type)
    (iso : option bool) :
  (_check_file_args X F path files type iso).2.1 = true →
  (_check_file_args X F path files type iso).2.2 = None ∧
  g_file_test_exists X path = true ∧
  if bool_decide (type = RECYCLE_BIN_TYPE_DIR) && g_file_test_is_dir F path
  then
    ∃ entries, g_dir_open F path = inr entries ∧
      (_check_file_args X F path files type iso).1
      = (files ++ map (g_build_filename F path)
                    (List.filter is_index_file_name entries), iso) ∧
      (files = [] → List.filter is_index_file_name entries = [] →
       _found_desktop_ini F path = true)
  else
    g_file_test_is_regular F path = true ∧
    (_check_file_args X F path files type iso).1
    = (files ++ [path],
       match type, iso with
       | RECYCLE_BIN_TYPE_DIR, Some _ =>
           Some (negb (_found_desktop_ini F (g_path_get_dirname F path)))
       | _, _ => iso
       end).
Proof.
  unfold _check_file_args, _populate_index_file_list.
  destruct (g_file_test_exists X path); simpl; [|discriminate].
  destruct (bool_decide (type = RECYCLE_BIN_TYPE_DIR) && g_file_test_is_dir F path)
    eqn:Hdir.
  - destruct (if G_OS_WIN32 X then can_list_win32_folder F path else None);
      [discriminate|].
    destruct (g_dir_open F path) as [e|entries]; [discriminate|]. simpl.
    rewrite add_index_files_eq.
    destruct (Nat.eqb _ 0 && negb (_found_desktop_ini F path)) eqn:Hlast;
      simpl; [discriminate|].
    intros _. do 2 (split; [reflexivity|]).
    exists entries. do 2 (split; [reflexivity|]).
    intros -> Hnone. rewrite Hnone in Hlast. simpl in Hlast.
    now destruct (_found_desktop_ini F path).
  - destruct (g_file_test_is_regular F path); simpl; [|discriminate].
    intros _. do 3 (split; [reflexivity|]).
    destruct type, iso; reflexivity.
Qed.

Lemma check_file_args_success_witness :
  (_check_file_args SampleFS.disk_ext SampleFS.disk SampleFS.bin
     [SampleFS.stray_index] RECYCLE_BIN_TYPE_DIR (Some true)).2.2 = None ∧
  g_file_test_exists SampleFS.disk_ext SampleFS.bin = true ∧
  if bool_decide (RECYCLE_BIN_TYPE_DIR = RECYCLE_BIN_TYPE_DIR)
     && g_file_test_is_dir SampleFS.disk SampleFS.bin
  then
    ∃ entries, g_dir_open SampleFS.disk SampleFS.bin = inr entries ∧
      (_check_file_args SampleFS.disk_ext SampleFS.disk SampleFS.bin
         [SampleFS.stray_index] RECYCLE_BIN_TYPE_DIR (Some true)).1
      = ([SampleFS.stray_index]
         ++ map (g_build_filename SampleFS.disk SampleFS.bin)
              (List.filter is_index_file_name entries), Some true) ∧
      ([SampleFS.stray_index] = [] →
       List.filter is_index_file_name entries = [] →
       _found_desktop_ini SampleFS.disk SampleFS.bin = true)
  else
    g_file_test_is_regular SampleFS.disk SampleFS.bin = true ∧
    (_check_file_args SampleFS.disk_ext SampleFS.disk SampleFS.bin
       [SampleFS.stray_index] RECYCLE_BIN_TYPE_DIR (Some true)).1
    = ([SampleFS.stray_index] ++ [SampleFS.bin],
       Some (negb (_found_desktop_ini SampleFS.disk
                     (g_path_get_dirname SampleFS.disk SampleFS.bin)))).
Proof.
  apply (check_file_args_success SampleFS.disk_ext SampleFS.disk SampleFS.bin
           [SampleFS.stray_index] RECYCLE_BIN_TYPE_DIR (Some true)).
  vm_compute. reflexivity.
Defined.

(** X15.  What a check adds to the list of index files depends neither
    on the list nor on the isolated-index flag: it is what the check adds
    to an empty list without a flag.  So the folders of a live system,
    checked in turn with their outcomes ignored, leave the list extended
    by what each folder adds on its own, in the order of the folders. *)
Theorem check_file_args_appends (X : externals) (F : file_system)
    (path : string) (files : list string) (type : rbin_type)
    (iso : option bool) (bindirs : list string) :
  (_check_file_args X F path files type iso).1.1
  = files ++ (_check_file_args X F path [] type None).1.1 ∧
  check_bindirs X F bindirs files type
  = files ++ concat (map (λ bindir,
                            (_check_file_args X F bindir [] type None).1.1)
                       bindirs).
Proof.
  split; [apply check_file_args_list | apply check_bindirs_eq].
Qed.

(** ** The hook that looks at the file arguments *)

(** X16.  Every failure of [_fileargs_handler] stores an error, and the
    exit code of that error tells the failures apart: a wrong number of
    file arguments is an argument error, offline as on a live system; a
    live system whose recycle bins cannot be enumerated is the
    no-live-system error; a single file argument that does not pass the
    check is a file that cannot be opened. *)
Theorem fileargs_handler_exit_code (C : header_consts) (X : externals)
    (F : file_system) (g : globals) (st : file_state) :
  (∀ p e, g_dir_open F p = inl e → domain e = G_FILE_ERROR) →
  (∀ p e, can_list_win32_folder F p = Some e → domain e = G_FILE_ERROR) →
  R2_FATAL_ERROR_LIVE_UNSUPPORTED C
    ∉ [R2_FATAL_ERROR_ILLEGAL_DATA C; R2_FATAL_ERROR_TEMPFILE C] →
  (_fileargs_handler C X F g st).2.1 = false →
  ∃ e, (_fileargs_handler C X F g st).2.2 = Some e ∧
       result (_get_exit_code C (Some e))
       = Returns (if live_mode g
                  then if Nat.eqb (fileargs_len st) 0
                       then EXIT_ERR_NO_LIVE else EXIT_ERR_ARG
                  else if Nat.eqb (fileargs_len st) 1
                       then EXIT_ERR_OPEN_FILE else EXIT_ERR_ARG).
Proof.
  intros Hdir Hwin Hcodes. unfold _fileargs_handler, fileargs_len.
  apply not_elem_of_cons in Hcodes as [Hc1 Hcodes].
  apply not_elem_of_cons in Hcodes as [Hc2 _].
  destruct (live_mode g); simpl.
  - destruct (Nat.eqb _ 0); simpl.
    + destruct (G_OS_WIN32 X || __linux__ X); [|discriminate].
      destruct (enumerate_drive_bins F) as [e|bindirs]; [|discriminate].
      intros _. eexists. split; [reflexivity|].
      unfold _get_exit_code, g_error_matches. simpl.
      apply Z.eqb_neq in Hc1, Hc2. rewrite Hc1, Hc2, Z.eqb_refl.
      reflexivity.
    + intros _. eexists. split; reflexivity.
  - destruct (Nat.eqb _ 1); simpl.
    + set (name := default "" (head (default [] (fileargs st)))).
      set (ty := type (meta st)).
      pose proof (check_file_args_failed X F name (allidxfiles st) ty
                    (Some (isolated_index st))) as Hfail.
      destruct (_check_file_args X F name (allidxfiles st) ty
                  (Some (isolated_index st))) as [[files iso] r].
      simpl in *. intros Hr.
      destruct (Hfail Hr) as (_ & e & He & Hdom).
      exists e. split; [assumption|].
      assert (Hd : domain e = G_FILE_ERROR).
      { destruct Hdom as [Hd | [[p Hp] | [p Hp]]]; [assumption|..].
        - by eapply Hdir.
        - by eapply Hwin. }
      unfold _get_exit_code. rewrite Hd. reflexivity.
    + intros _. eexists. split; reflexivity.
Qed.

Lemma fileargs_handler_exit_code_witness :
  ∃ e, (_fileargs_handler Sample.consts SampleFS.disk_ext SampleFS.disk
          Sample.globals_text
          (SampleFS.one_argument SampleFS.missing_bin RECYCLE_BIN_TYPE_DIR)).2.2
       = Some e ∧
       result (_get_exit_code Sample.consts (Some e))
       = Returns EXIT_ERR_OPEN_FILE.
Proof.
  apply (fileargs_handler_exit_code Sample.consts SampleFS.disk_ext
           SampleFS.disk Sample.globals_text
           (SampleFS.one_argument SampleFS.missing_bin RECYCLE_BIN_TYPE_DIR)).
  - intros p e. simpl. unfold SampleFS.listing.
    repeat case_match; intros [= <-]; reflexivity.
  - intros p e. simpl. discriminate.
  - apply (bool_decide_unpack _). vm_compute. exact I.
  - vm_compute. reflexivity.
Defined.

(** X17.  On a live system, without file arguments, the hook succeeds as
    soon as the recycle bin folders can be enumerated, whatever the check
    of each folder finds: it names the input [(current system)], leaves
    the isolated-index flag alone, and extends the list of index files
    by what each folder adds, in the order of the enumeration; a folder
    whose check fails adds nothing and its error is dropped. *)
Theorem fileargs_handler_live (C : header_consts) (X : externals)
    (F : file_system) (g : globals) (st : file_state)
    (bindirs : list string) :
  live_mode g = true →
  fileargs_len st = 0%nat →
  G_OS_WIN32 X || __linux__ X = true →
  enumerate_drive_bins F = inr bindirs →
  _fileargs_handler C X F g st
  = (mk_file_state (fileargs st)
       (allidxfiles st
        ++ concat (map (λ bindir,
                          (_check_file_args X F bindir [] (type (meta st))
                             None).1.1)
                     bindirs))
       (isolated_index st)
       (set_filename (meta st) "(current system)"),
     CB_TRUE) ∧
  (∀ bindir,
     (_check_file_args X F bindir [] (type (meta st)) None).2.1 = false →
     (_check_file_args X F bindir [] (type (meta st)) None).1.1 = []).
Proof.
  intros Hlive Hlen Hos Hbins. split.
  - unfold _fileargs_handler. fold (fileargs_len st).
    rewrite Hlive, Hlen, Hos, Hbins. simpl.
    now rewrite check_bindirs_eq.
  - intros bindir Hfail.
    destruct (check_file_args_failed X F bindir [] (type (meta st)) None Hfail)
      as [Hsame _].
    now rewrite Hsame.
Qed.

Lemma fileargs_handler_live_witness :
  _fileargs_handler Sample.consts SampleFS.disk_ext SampleFS.disk
    SampleFS.globals_live (SampleFS.no_argument RECYCLE_BIN_TYPE_DIR)
  = (mk_file_state None
       ([] ++ concat
          (map (λ bindir,
                  (_check_file_args SampleFS.disk_ext SampleFS.disk bindir []
                     RECYCLE_BIN_TYPE_DIR None).1.1)
             [SampleFS.bin; SampleFS.locked_bin; SampleFS.empty_bin;
              SampleFS.missing_bin]))
       false
       (set_filename (meta (SampleFS.no_argument RECYCLE_BIN_TYPE_DIR))
          "(current system)"),
     CB_TRUE) ∧
  (∀ bindir,
     (_check_file_args SampleFS.disk_ext SampleFS.disk bindir []
        RECYCLE_BIN_TYPE_DIR None).2.1 = false →
     (_check_file_args SampleFS.disk_ext SampleFS.disk bindir []
        RECYCLE_BIN_TYPE_DIR None).1.1 = []).
Proof.
  apply (fileargs_handler_live Sample.consts SampleFS.disk_ext SampleFS.disk
           SampleFS.globals_live (SampleFS.no_argument RECYCLE_BIN_TYPE_DIR)
           [SampleFS.bin; SampleFS.locked_bin; SampleFS.empty_bin;
            SampleFS.missing_bin]); reflexivity.
Defined.

(** ** Names of index files *)

Lemma match_nil (p : ascii) (rest : string) :
  Ascii.eqb p "*" = false →
  g_pattern_match_string (String p rest) EmptyString = false.
Proof.
  intros Hp. cbn [g_pattern_match_string]. rewrite Hp.
  now destruct (Ascii.eqb p "?").
Qed.

Lemma match_lit (p : ascii) (rest : string) (c : ascii) (s : string) :
  Ascii.eqb p "*" = false → Ascii.eqb p "?" = false →
  g_pattern_match_string (String p rest) (String c s)
  = Ascii.eqb p c && g_pattern_match_string rest s.
Proof. intros Hs Hq. cbn [g_pattern_match_string]. now rewrite Hs, Hq. Qed.

Lemma match_any (rest : string) (c : ascii) (s : string) :
  (nat_of_ascii c <? 128)%nat = true →
  g_pattern_match_string (String "?" rest) (String c s)
  = g_pattern_match_string rest s.
Proof.
  intros Hc. cbn [g_pattern_match_string].
  change (Ascii.eqb "?" "*") with false. change (Ascii.eqb "?" "?") with true.
  cbv iota. unfold g_utf8_skip.
  apply Nat.ltb_lt in Hc.
  destruct (Nat.ltb_spec (nat_of_ascii c) 192); [reflexivity | lia].
Qed.

Lemma match_star_end (s : string) : g_pattern_match_string "*" s = true.
Proof. induction s as [|c s IH]; [reflexivity|]. simpl in *. exact IH. Qed.

Ltac glob :=
  repeat first
    [ rewrite match_star_end
    | rewrite match_any by assumption
    | rewrite match_lit by reflexivity
    | rewrite match_nil by reflexivity ].

(** X18.  Which names the scan of a folder takes for index files, for
    names in ASCII: those made of [$I], six more characters, and then
    either nothing or a dot and anything. *)
Theorem index_file_names (name : string) :
  all_ascii name = true →
  is_index_file_name name = true ↔
  ∃ six rest, String.length six = 6%nat ∧ name = "$I" +:+ six +:+ rest ∧
              (rest = EmptyString ∨ ∃ ext, rest = String "." ext).
Proof.
  intros Hascii. unfold is_index_file_name. split.
  - destruct name as [|c0 [|c1 [|a1 [|a2 [|a3 [|a4 [|a5 [|a6 rest]]]]]]]];
      cbn [all_ascii] in Hascii.
    all: repeat match goal with
           | H : _ && _ = true |- _ => apply andb_prop in H as [? H]
           end.
    all: glob; rewrite ?andb_false_r; try discriminate.
    intros Hm.
    assert (Hc0 : c0 = "$"%char ∧ c1 = "I"%char).
    { apply orb_prop in Hm as [Hm | Hm];
        apply andb_prop in Hm as [H0' Hm]; apply andb_prop in Hm as [H1' _];
        apply Ascii.eqb_eq in H0', H1'; by subst. }
    destruct Hc0 as [-> ->].
    exists (String a1 (String a2 (String a3 (String a4 (String a5
              (String a6 EmptyString)))))), rest.
    split; [reflexivity|]. split; [reflexivity|].
    rewrite !Ascii.eqb_refl in Hm. cbn [andb] in Hm.
    destruct rest as [|r0 rest]; [by left|right].
    revert Hm. glob. intros Hm.
    apply orb_prop in Hm as [Hm | Hm]; [|discriminate].
    apply andb_prop in Hm as [Hm _]. apply Ascii.eqb_eq in Hm. subst r0.
    by eexists.
  - intros (six & rest & Hlen & -> & Hrest).
    destruct six as [|a1 [|a2 [|a3 [|a4 [|a5 [|a6 [|a7 six]]]]]]];
      try discriminate.
    unfold String.app in *. cbn [String.append all_ascii] in *.
    repeat match goal with
           | H : _ && _ = true |- _ => apply andb_prop in H as [? H]
           end.
    glob. rewrite !Ascii.eqb_refl. cbn [andb].
    destruct Hrest as [-> | [ext ->]].
    + apply orb_true_r.
    + rewrite match_lit by reflexivity. rewrite match_star_end. reflexivity.
Qed.

Lemma index_file_names_witness :
  is_index_file_name "$IABCDEF.txt" = true ↔
  ∃ six rest, String.length six = 6%nat ∧
              "$IABCDEF.txt" = "$I" +:+ six +:+ rest ∧
              (rest = EmptyString ∨ ∃ ext, rest = String "." ext).
Proof.
  apply (index_file_names "$IABCDEF.txt"). reflexivity.
Defined.

(** ** Hex dump *)

Lemma append_nonempty (a b : string) :
  (0 <? String.length b)%nat = true →
  (0 <? String.length (a +:+ b))%nat = true.
Proof.
  intros Hb. destruct a as [|c a]; [exact Hb | reflexivity].
Qed.

Lemma rows_before_succ (i : nat) :
  (i / 16 = (i - 1) / 16 + (if Nat.eqb (i mod 16) 0 && (0 <? i) then 1 else 0))%nat.
Proof.
  pose proof (Nat.div_mod_eq i 16) as Hq.
  pose proof (Nat.mod_upper_bound i 16) as Hr.
  pose proof (Nat.div_mod_eq (i - 1) 16) as Hq'.
  pose proof (Nat.mod_upper_bound (i - 1) 16) as Hr'.
  destruct (Nat.eqb_spec (i mod 16) 0) as [Hm | Hm];
    destruct (Nat.ltb_spec 0 i) as [Hi | Hi]; cbn [andb]; lia.
Qed.

Lemma hexdump_loop_rows (start : list Z) (size : nat) (fuel i : nat)
    (s : string) (lines : list string) :
  (i ≤ size)%nat → (size - i < fuel)%nat →
  (0 <? String.length s)%nat = (0 <? i)%nat →
  ∃ out, hexdump_loop fuel start size i s lines = Some out ∧
         (length out + (i - 1) / 16 = length lines + size / 16)%nat.
Proof.
  revert i s lines. induction fuel as [|fuel IH]; intros i s lines Hi Hfuel Hs;
    [lia|].
  cbn [hexdump_loop].
  pose proof (rows_before_succ i) as Hrows.
  rewrite <- Hs in Hrows.
  destruct (Nat.eqb (i mod 16) 0) eqn:Hmod;
    [destruct (0 <? String.length s)%nat eqn:Hlen|]; cbn [andb] in Hrows.
  - destruct (Nat.leb_spec size i) as [Hend | Hmore].
    + eexists. split; [reflexivity|].
      rewrite length_app. cbn [length]. assert (i = size) as -> by lia. lia.
    + match goal with
      | |- context [hexdump_loop fuel start size (S i) ?s' ?l'] =>
          destruct (IH (S i) s' l') as (out & Hout & Hlen');
            [lia | lia | by do 2 apply append_nonempty |]
      end.
      exists out. split; [exact Hout|].
      rewrite ?length_app in Hlen'. cbn [length] in Hlen'.
      replace (S i - 1)%nat with i in Hlen' by lia. lia.
  - destruct (Nat.leb_spec size i) as [Hend | Hmore].
    + eexists. split; [reflexivity|].
      assert (i = size) as -> by lia. lia.
    + match goal with
      | |- context [hexdump_loop fuel start size (S i) ?s' ?l'] =>
          destruct (IH (S i) s' l') as (out & Hout & Hlen');
            [lia | lia | by do 2 apply append_nonempty |]
      end.
      exists out. split; [exact Hout|].
      rewrite ?length_app in Hlen'. cbn [length] in Hlen'.
      replace (S i - 1)%nat with i in Hlen' by lia. lia.
  - destruct (Nat.leb_spec size i) as [Hend | Hmore].
    + eexists. split; [reflexivity|].
      assert (i = size) as -> by lia. lia.
    + match goal with
      | |- context [hexdump_loop fuel start size (S i) ?s' ?l'] =>
          destruct (IH (S i) s' l') as (out & Hout & Hlen');
            [lia | lia | by do 2 apply append_nonempty |]
      end.
      exists out. split; [exact Hout|].
      rewrite ?length_app in Hlen'. cbn [length] in Hlen'.
      replace (S i - 1)%nat with i in Hlen' by lia. lia.
Qed.

(** X19.  [hexdump] always comes to its [break], and the lines it hands
    to the log are as many as there are complete rows of sixteen bytes:
    the row that is being built when the bytes run out is not handed
    over. *)
Theorem hexdump_rows (start : list Z) (size : nat) :
  ∃ lines, hexdump start size = Some lines ∧
           length lines = (size / 16)%nat.
Proof.
  destruct (hexdump_loop_rows start size (S size) 0 EmptyString [])
    as (out & Hout & Hlen); [lia | lia | reflexivity |].
  exists out. split; [exact Hout|]. cbn [length] in Hlen.
  change ((0 - 1) / 16)%nat with 0%nat in Hlen. lia.
Qed.

(** ** The rows of a text dump *)



